(** * Sierpinski-Peano (Steinhaus) curve generator: a shallow embedding

    The development follows [SierpinskyPeanoCurve.py].  Floating point
    coordinates are modelled by exact rationals ([Qc], canonical fractions
    with Leibniz equality); numpy one-dimensional arrays and Python lists of
    floats are lists of [Qc]; Python dictionaries are [gmap]s; raised
    exceptions are the [Raise] branch of a small error monad. *)

From Stdlib Require Import QArith Qcanon Field Ascii String Lqa.
From stdpp Require Import gmap strings list fin_maps numbers pretty.

Open Scope Qc_scope.

(** ** Exceptions and the error monad *)

Inductive exception : Type :=
  | ZeroDivisionError
  | KeyError
  | ValueError
  | IndexError
  | TypeError
  | Exception (msg : string).

Inductive result (A : Type) : Type :=
  | OK (a : A)
  | Raise (e : exception).
Arguments OK {A} a.
Arguments Raise {A} e.

#[global] Instance exception_eq_dec : EqDecision exception.
Proof. solve_decision. Defined.
#[global] Instance result_eq_dec `{EqDecision A} : EqDecision (result A).
Proof. solve_decision. Defined.

(** The class name of a raised exception, [type(e).__name__]. *)
Definition exception_name (e : exception) : string :=
  match e with
  | ZeroDivisionError => "ZeroDivisionError"
  | KeyError => "KeyError"
  | ValueError => "ValueError"
  | IndexError => "IndexError"
  | TypeError => "TypeError"
  | Exception _ => "Exception"
  end.

#[global] Instance result_ret : MRet result := fun A a => OK a.
#[global] Instance result_bind : MBind result := fun A B f m =>
  match m with
  | OK a => f a
  | Raise e => Raise e
  end.

Definition succeeds {A} (m : result A) : bool :=
  match m with OK _ => true | Raise _ => false end.

(** Monadic left fold: a [for] loop whose body may raise. *)
Fixpoint for_each {A S} (body : S -> A -> result S) (l : list A) (s : S)
  : result S :=
  match l with
  | [] => OK s
  | a :: l' => s' ← body s a; for_each body l' s'
  end.

(** ** Python and numpy primitives *)

Abbreviation array := (list Qc).

(** [d[k]] on a dictionary. *)
Definition getitem `{Countable K} {V} (d : gmap K V) (k : K) : result V :=
  match d !! k with
  | Some v => OK v
  | None => Raise KeyError
  end.

(** [np.flipud] on a one-dimensional array, unary minus, [np.append]. *)
Definition flipud (a : array) : array := reverse a.
Definition neg (a : array) : array := Qcopp <$> a.
Definition append (a b : array) : array := a ++ b.

(** [scale * a + off], broadcast over the array. *)
Definition affine (scale : Qc) (a : array) (off : Qc) : array :=
  (fun x => scale * x + off) <$> a.

(** [l[0:-1]] on a list. *)
Definition drop_last {A} (l : list A) : list A := removelast l.

(** [range(a, b)]. *)
Definition range (a b : Z) : list Z := seqZ a (b - a).

(** [2 ** e] for an integer [e]: an integer for [0 <= e], its reciprocal
    (a float in Python) otherwise.  The value is kept exact for every [e];
    the doubles of the source agree with it for [-1024 < e < 1024], and
    beyond that range [1.0/2**e] raises [OverflowError] or
    [ZeroDivisionError].  Properties of direct calls of [get] and
    [getOffset] are stated within the range. *)
Definition pow2 (e : Z) : Qc :=
  if decide (0 <= e)%Z then 2 ^ Z.to_nat e else / (2 ^ Z.to_nat (- e)).

(** [str(k)] on an integer and [int(c)] on a one-character string. *)
Definition str (k : Z) : string := pretty k.

Definition int (c : ascii) : result Z :=
  match Ascii.is_nat c with
  | Some n => OK (Z.of_nat n)
  | None => Raise ValueError
  end.

(** [key[-i]] for [1 <= i] and [key[:-1]]. *)
Definition from_end (key : string) (i : nat) : result ascii :=
  if decide (i <= String.length key)%nat then
    match String.get (String.length key - i) key with
    | Some c => OK c
    | None => Raise IndexError
    end
  else Raise IndexError.

Definition but_last (key : string) : string :=
  substring 0 (String.length key - 1) key.

(** ** Geometry utilities *)

(** [symmetrize]: mirror images of the points [zip(X, Y)] over the line
    [a x + b y + c = 0].  The division that defines [den] raises before the
    loop is entered. *)
Definition symmetrize_step (a b c den : Qc) (acc : array * array)
    (p : Qc * Qc) : array * array :=
  let xl := den * (b ^ 2 * p.1 - a * b * p.2 - a * c) in
  let yl := den * (- a * b * p.1 + a ^ 2 * p.2 - b * c) in
  (acc.1 ++ [2 * xl - p.1], acc.2 ++ [2 * yl - p.2]).

Definition symmetrize (a b c : Qc) (X Y : array) : result (array * array) :=
  if decide (a ^ 2 + b ^ 2 = 0) then Raise ZeroDivisionError
  else
    let den := 1 / (a ^ 2 + b ^ 2) in
    OK (foldl (symmetrize_step a b c den) ([], []) (zip X Y)).

(** [generateSymmetries]: fills entries 2, 3 and 4 of both dictionaries from
    entry 1; the dictionaries are updated in place, here returned. *)
Definition generateSymmetries (DX DY : gmap Z array)
  : result (gmap Z array * gmap Z array) :=
  x ← getitem DX 1%Z; let DX := <[2%Z := flipud (neg x)]> DX in
  y ← getitem DY 1%Z; let DY := <[2%Z := flipud y]> DY in
  x ← getitem DX 1%Z; let DX := <[3%Z := flipud x]> DX in
  y ← getitem DY 1%Z; let DY := <[3%Z := flipud (neg y)]> DY in
  x ← getitem DX 1%Z; let DX := <[4%Z := flipud (neg x)]> DX in
  y ← getitem DY 1%Z; let DY := <[4%Z := flipud (neg y)]> DY in
  OK (DX, DY).

(** [getOffset]: the loop over [enumerate(key)]. *)
Definition getOffset_step (st : nat * (Qc * Qc)) (c : ascii)
  : result (nat * (Qc * Qc)) :=
  let '(i, (offsetX, offsetY)) := st in
  let scale := 1 / pow2 (Z.of_nat i + 1) in
  k ← int c;
  let offsetX :=
    if decide (k `mod` 2 = 1)%Z then offsetX + - scale else offsetX + scale in
  let offsetY :=
    if decide (k < 3)%Z then offsetY + scale else offsetY + - scale in
  OK (S i, (offsetX, offsetY)).

Definition getOffset (key : string) : result (Qc * Qc) :=
  st ← for_each getOffset_step (list_ascii_of_string key) (0%nat, (0, 0));
  OK st.2.

(** ** Pattern library *)

Record Pattern : Type := mkPattern {
  pattern_level : Z;
  pattern_X : gmap Z array;
  pattern_Y : gmap Z array;
  patternS_X : gmap Z array;
  patternS_Y : gmap Z array;
  patternE_X : gmap Z array;
  patternE_Y : gmap Z array
}.

(** [Pattern.__init__]. *)
Definition Pattern_init (rootPattern_X rootPattern_Y : array)
  : result Pattern :=
  '(Xs, Ys) ← symmetrize (-1) (-1) 0 rootPattern_X rootPattern_Y;
  let pX : gmap Z array := {[1%Z := append rootPattern_X (flipud Xs)]} in
  let pY : gmap Z array := {[1%Z := append rootPattern_Y (flipud Ys)]} in
  '(pX, pY) ← generateSymmetries pX pY;
  '(Xs, Ys) ← symmetrize 1 (-1) 1
                (drop_last rootPattern_X) (drop_last rootPattern_Y);
  let sX : gmap Z array :=
    {[1%Z := append (drop_last rootPattern_X) (flipud Xs)]} in
  let sY : gmap Z array :=
    {[1%Z := append (drop_last rootPattern_Y) (flipud Ys)]} in
  '(sX, sY) ← generateSymmetries sX sY;
  sX1 ← getitem sX 1%Z;
  sY1 ← getitem sY 1%Z;
  '(patternE_X, patternE_Y) ← symmetrize 1 1 0 sX1 sY1;
  let eX : gmap Z array := {[1%Z := patternE_X]} in
  let eY : gmap Z array := {[1%Z := patternE_Y]} in
  '(eX, eY) ← generateSymmetries eX eY;
  OK (mkPattern 0 pX pY sX sY eX eY).

(** ** Curve assembler *)

(** The value stored for a node: [lines[0]] holds the X arrays and
    [lines[1]] the Y arrays of its polylines. *)
Abbreviation geometry := (list array * list array)%type.

Record Steinhaus : Type := mkSteinhaus {
  level : Z;
  pattern : Pattern;
  lines : gmap Z (gmap string geometry)
}.

(** [Steinhaus.get]. *)
Definition get (P : Pattern) (id idParent level : Z) (offset : Qc * Qc)
    (nParent : Z) : result geometry :=
  let scale := 1 / pow2 (level - 1) in
  if bool_decide (id = 5 - idParent)%Z
     || (bool_decide (nParent = 2%Z) && bool_decide (idParent = id))
  then
    sx ← getitem (patternS_X P) id;
    ex ← getitem (patternE_X P) id;
    sy ← getitem (patternS_Y P) id;
    ey ← getitem (patternE_Y P) id;
    OK ([affine scale sx offset.1; affine scale ex offset.1],
        [affine scale sy offset.2; affine scale ey offset.2])
  else
    x ← getitem (pattern_X P) id;
    y ← getitem (pattern_Y P) id;
    OK ([affine scale x offset.1], [affine scale y offset.2]).

(** [Steinhaus.getFromKey]. *)
Definition getFromKey (P : Pattern) (key : string) (nParent : Z)
  : result geometry :=
  c1 ← from_end key 1;
  id ← int c1;
  c2 ← from_end key 2;
  idParent ← int c2;
  offset ← getOffset (but_last key);
  get P id idParent (Z.of_nat (String.length key)) offset nParent.

(** The dictionary comprehension of [generateLevel] for one parent entry. *)
Definition children (P : Pattern) (key : string) (parent : geometry)
  : result (gmap string geometry) :=
  for_each
    (fun (d : gmap string geometry) k =>
       g ← getFromKey P (key +:+ str k) (Z.of_nat (length parent.1));
       OK (<[key +:+ str k := g]> d))
    (range 1 5) ∅.

(** [Steinhaus.generateLevel]: [self.lines[level]] is reset to the empty
    dictionary and updated once per entry of the previous level.  A Python
    dictionary is iterated in an unspecified order; [map_to_list] fixes
    one. *)
Definition generateLevel (P : Pattern) (lines : gmap Z (gmap string geometry))
    (level : Z) : result (gmap Z (gmap string geometry)) :=
  let lines := <[level := ∅]> lines in
  prev ← getitem lines (level - 1)%Z;
  for_each
    (fun (lines : gmap Z (gmap string geometry)) '(key, parent) =>
       new ← children P key parent;
       cur ← getitem lines level;
       OK (<[level := new ∪ cur]> lines))
    (map_to_list prev) lines.

(** [Steinhaus.__init__]. *)
Definition Steinhaus_init (level : Z) (rootPattern_X rootPattern_Y : array)
  : result Steinhaus :=
  P ← Pattern_init rootPattern_X rootPattern_Y;
  l1 ← for_each
         (fun (d : gmap string geometry) k =>
            g ← get P k 0 1 (0, 0) 1;
            OK (<[str k := g]> d))
         (range 1 5) ∅;
  let lines : gmap Z (gmap string geometry) := {[1%Z := l1]} in
  lines ← for_each (generateLevel P) (range 2 (level + 1)) lines;
  OK (mkSteinhaus level P lines).

(** ** The script

    The [__main__] block up to the construction of the curve; rendering is
    outside the model.  [px] and [py] are the parsed [--px] and [--py]
    options, [None] when the option is absent. *)
Definition q (n : Z) (d : positive) : Qc := Q2Qc (n # d).

Definition default_X : array := [q (-1) 2; q (-1) 2; q (-3) 4].
Definition default_Y : array := [q 0 1; q 1 4; q 1 2].

Definition len (a : option array) : result nat :=
  match a with
  | Some l => OK (length l)
  | None => Raise TypeError
  end.

Definition none_or_empty (a : option array) : bool :=
  match a with
  | None => true
  | Some l => bool_decide (length l = 0%nat)
  end.

Definition main (TopLeftPattern_X TopLeftPattern_Y : array) (nLevel : Z)
  : result Steinhaus :=
  Steinhaus_init nLevel TopLeftPattern_X TopLeftPattern_Y.

Definition script (px py : option array) (nLevel : Z) : result Steinhaus :=
  let '(TopLeftPattern_X, TopLeftPattern_Y) :=
    if none_or_empty px && none_or_empty py
    then (Some default_X, Some default_Y)
    else (px, py) in
  lx ← len TopLeftPattern_X;
  ly ← len TopLeftPattern_Y;
  if bool_decide (lx <> ly) then
    Raise (Exception
             "X and Y cordinates should have the same number of elements")
  else
    match TopLeftPattern_X, TopLeftPattern_Y with
    | Some X, Some Y => main X Y nLevel
    | _, _ => Raise TypeError
    end.

(** * Specification-side definitions

    What the specification says of each operation, in its own words; the
    theorems below compare the program with these. *)

(** ** Geometry *)

(** The mirror image of a point: project orthogonally on the line, then
    double. *)
Definition reflect_point (a b c : Qc) (p : Qc * Qc) : Qc * Qc :=
  let t := (a * p.1 + b * p.2 + c) / (a ^ 2 + b ^ 2) in
  let proj := (p.1 - t * a, p.2 - t * b) in
  (2 * proj.1 - p.1, 2 * proj.2 - p.2).

Definition reflect_points (a b c : Qc) (ps : list (Qc * Qc))
  : list (Qc * Qc) :=
  reflect_point a b c <$> ps.

(** The orientations of a seed point sequence: 1 is the seed; 2, 3 and 4
    are the seed in reverse point order with X negated, with Y negated,
    with both negated. *)
Definition orientation (k : Z) (seed : list (Qc * Qc)) : list (Qc * Qc) :=
  if decide (k = 1)%Z then seed
  else if decide (k = 2)%Z then reverse ((fun p => (- p.1, p.2)) <$> seed)
  else if decide (k = 3)%Z then reverse ((fun p => (p.1, - p.2)) <$> seed)
  else reverse ((fun p => (- p.1, - p.2)) <$> seed).

(** ** Pattern library *)

(** The dictionaries [generateSymmetries] leaves behind. *)
Definition symmetries_X (DX : gmap Z array) (x : array) : gmap Z array :=
  <[4%Z := flipud (neg x)]> (<[3%Z := flipud x]>
    (<[2%Z := flipud (neg x)]> DX)).

Definition symmetries_Y (DY : gmap Z array) (y : array) : gmap Z array :=
  <[4%Z := flipud (neg y)]> (<[3%Z := flipud (neg y)]>
    (<[2%Z := flipud y]> DY)).

(** Orientation 1 of the plain, connector-start and connector-end
    patterns. *)
Definition plain_seed (X Y : array) : array * array :=
  let R := reflect_points (-1) (-1) 0 (zip X Y) in
  (X ++ reverse R.*1, Y ++ reverse R.*2).

Definition start_seed (X Y : array) : array * array :=
  let R := reflect_points 1 (-1) 1 (zip (removelast X) (removelast Y)) in
  (removelast X ++ reverse R.*1, removelast Y ++ reverse R.*2).

Definition end_seed (X Y : array) : array * array :=
  let S := start_seed X Y in
  let R := reflect_points 1 1 0 (zip S.1 S.2) in
  (R.*1, R.*2).

Definition library (X Y : array) : Pattern :=
  mkPattern 0
    (symmetries_X {[1%Z := (plain_seed X Y).1]} (plain_seed X Y).1)
    (symmetries_Y {[1%Z := (plain_seed X Y).2]} (plain_seed X Y).2)
    (symmetries_X {[1%Z := (start_seed X Y).1]} (start_seed X Y).1)
    (symmetries_Y {[1%Z := (start_seed X Y).2]} (start_seed X Y).2)
    (symmetries_X {[1%Z := (end_seed X Y).1]} (end_seed X Y).1)
    (symmetries_Y {[1%Z := (end_seed X Y).2]} (end_seed X Y).2).

(** ** Node addresses *)

Abbreviation chars := list_ascii_of_string.

(** Strings of [d] digits 1 to 4. *)
Definition digit_chars : list ascii := ["1"; "2"; "3"; "4"]%char.

Definition address (d : nat) (key : string) : Prop :=
  String.length key = d /\ Forall (fun c => c ∈ digit_chars) (chars key).

#[global] Instance address_dec d key : Decision (address d key).
Proof. unfold address. apply _. Defined.

Definition digit (c : ascii) : Z :=
  match Ascii.is_nat c with
  | Some n => Z.of_nat n
  | None => 0%Z
  end.

Definition digits (key : string) : list Z := digit <$> chars key.

(** All addresses of a given length, without repetition. *)
Fixpoint all_keys (d : nat) : list string :=
  match d with
  | O => [EmptyString]
  | S d' => c ← digit_chars; String c <$> all_keys d'
  end.

(** [a] is a prefix, a strict prefix, of [key]. *)
Definition extends (a key : string) : Prop := String.prefix a key = true.

#[global] Instance extends_dec a key : Decision (extends a key).
Proof. unfold extends. apply _. Defined.

Definition strict_prefix (a key : string) : Prop := extends a key /\ a <> key.

#[global] Instance strict_prefix_dec a key : Decision (strict_prefix a key).
Proof. unfold strict_prefix. apply _. Defined.

(** ** Nodes *)

(** The disambiguation rule. *)
Definition is_junction (k idParent nParent : Z) : Prop :=
  k = (5 - idParent)%Z \/ (nParent = 2%Z /\ k = idParent).

#[global] Instance is_junction_dec k idParent nParent :
  Decision (is_junction k idParent nParent).
Proof. unfold is_junction. apply _. Defined.

(** The two shapes of a resolved node: one plain polyline, or the
    connector-start and connector-end polylines, scaled and translated
    alike. *)
Definition plain_node (P : Pattern) (k : Z) (scale : Qc) (off : Qc * Qc)
  : geometry :=
  ([affine scale (pattern_X P !!! k) off.1],
   [affine scale (pattern_Y P !!! k) off.2]).

Definition junction_node (P : Pattern) (k : Z) (scale : Qc) (off : Qc * Qc)
  : geometry :=
  ([affine scale (patternS_X P !!! k) off.1;
    affine scale (patternE_X P !!! k) off.1],
   [affine scale (patternS_Y P !!! k) off.2;
    affine scale (patternE_Y P !!! k) off.2]).

(** [dst] is [src] multiplied by [scale] and translated by [off],
    coordinate by coordinate. *)
Definition placed (scale off : Qc) (src dst : array) : Prop :=
  length dst = length src /\
  forall (i : nat) (v : Qc), src !! i = Some v ->
    dst !! i = Some (scale * v + off).

(** The offset: the digit at position [i] of the prefix contributes
    [1 / 2^(i+1)] to each axis, negatively to X when it is odd and
    negatively to Y when it is 3 or more. *)
Definition contribution (i : nat) (d : Z) : Qc * Qc :=
  let h := 1 / 2 ^ (i + 1)%nat in
  (if Z.odd d then - h else h, if decide (d < 3)%Z then h else - h).

Fixpoint offset_from (i : nat) (ds : list Z) : Qc * Qc :=
  match ds with
  | [] => (0, 0)
  | d :: ds' =>
      ((contribution i d).1 + (offset_from (S i) ds').1,
       (contribution i d).2 + (offset_from (S i) ds').2)
  end.

Definition offset_spec (ds : list Z) : Qc * Qc := offset_from 0 ds.

(** The incoming id and the flag (1 plain, 2 connector junction) of the
    node reached along an address; [(0, 1)] above the roots. *)
Definition descend (st : Z * Z) (k : Z) : Z * Z :=
  (k, if decide (is_junction k st.1 st.2) then 2%Z else 1%Z).

Definition node_state (ds : list Z) : Z * Z := foldl descend (0%Z, 1%Z) ds.

(** The geometry of the node at an address. *)
Definition resolve (P : Pattern) (ds : list Z) : geometry :=
  match last ds with
  | None => ([], [])
  | Some k =>
      let parent := removelast ds in
      let scale := 1 / 2 ^ (length ds - 1)%nat in
      if decide (is_junction k (node_state parent).1 (node_state parent).2)
      then junction_node P k scale (offset_spec parent)
      else plain_node P k scale (offset_spec parent)
  end.

(** ** Levels *)

(** The entries one parent contributes to the next level. *)
Definition kids (P : Pattern) (key : string) : gmap string geometry :=
  foldl (fun m k => <[key +:+ str k := resolve P (digits (key +:+ str k))]> m)
    ∅ [1; 2; 3; 4]%Z.

(** The dictionary the loop of [generateLevel] builds from the entries [l]
    of the previous level, starting from [cur]. *)
Definition gathered (P : Pattern) (l : list (string * geometry))
    (cur : gmap string geometry) : gmap string geometry :=
  foldl (fun cur kg => kids P kg.1 ∪ cur) cur l.

(** Every entry holds the geometry of its address; the dictionary is that
    of level [d]. *)
Definition well_valued (P : Pattern) (m : gmap string geometry) : Prop :=
  forall s v, m !! s = Some v -> v = resolve P (digits s).

Definition level_ok (P : Pattern) (d : nat) (m : gmap string geometry)
  : Prop :=
  forall s, m !! s
            = if decide (address d s) then Some (resolve P (digits s))
              else None.

(** The levels a run with requested depth [level] produces: level 1 is
    always built, so the last one is [max level 1]. *)
Definition depth (level : Z) : nat := Z.to_nat (Z.max level 1).

(** The dictionary of levels holds levels [1 .. j], each as specified, and
    nothing else. *)
Definition levels_ok (P : Pattern) (j : nat)
    (lines : gmap Z (gmap string geometry)) : Prop :=
  (forall d, (1 <= d <= j)%nat ->
     exists m, lines !! Z.of_nat d = Some m /\ level_ok P d m) /\
  (forall z, (z < 1 \/ Z.of_nat j < z)%Z -> lines !! z = None).

(** ** The viewport *)

(** All coordinates of an array lie in [[-1, 1]]. *)
Definition within_unit (a : array) : Prop :=
  Forall (fun v => - (1) <= v /\ v <= 1) a.

#[global] Instance within_unit_dec a : Decision (within_unit a).
Proof. unfold within_unit. apply _. Defined.

(** All arrays of a pattern library lie in [[-1, 1]]. *)
Definition library_within_unit (P : Pattern) : Prop :=
  map_Forall (fun _ a => within_unit a) (pattern_X P) /\
  map_Forall (fun _ a => within_unit a) (pattern_Y P) /\
  map_Forall (fun _ a => within_unit a) (patternS_X P) /\
  map_Forall (fun _ a => within_unit a) (patternS_Y P) /\
  map_Forall (fun _ a => within_unit a) (patternE_X P) /\
  map_Forall (fun _ a => within_unit a) (patternE_Y P).

#[global] Instance library_within_unit_dec P :
  Decision (library_within_unit P).
Proof. unfold library_within_unit. apply _. Defined.

(** ** Counting connector junctions *)

(** The addresses of length [d] that lead, from a node in state [st], to a
    connector junction. *)
Definition junction_count (st : Z * Z) (d : nat) : nat :=
  length (filter (fun key => (foldl descend st (digits key)).2 = 2%Z)
            (all_keys d)).

(** ** Rendering

    [makePlot] and the loop of [main] drive matplotlib.  The model keeps
    what reaches the renderer: for each figure the output file name, the
    grid flag and the polylines passed to [ax.plot], in call order, each
    with its colour.  [ax.plot] raises [ValueError] when its two arrays
    differ in length.  [fig.savefig] is taken to succeed: failures of the
    file system are outside the model, and so is its refusal of a file
    name whose extension is not a supported format.  A dictionary is
    iterated in the order of [map_to_list], which is not the order of the
    Python dictionary; properties are stated up to that order.
    [np.random.random()] reads the next value of an explicit stream [rnd];
    the position in the stream is threaded through. *)
Inductive colour : Type :=
  | Black
  | RGB (r g b : Qc).

Record figure : Type := mkFigure {
  fig_filename : string;
  fig_grid : bool;
  fig_plots : list (array * array * colour)
}.

(** The body of the inner loop of [makePlot]: one call of [ax.plot]. *)
Definition plot_line (rnd : nat -> Qc) (randomColor : bool)
    (st : nat * list (array * array * colour)) (line : array * array)
  : result (nat * list (array * array * colour)) :=
  let color :=
    if randomColor then RGB (rnd st.1) (rnd (S st.1)) (rnd (S (S st.1)))
    else Black in
  let n := if randomColor then (st.1 + 3)%nat else st.1 in
  if decide (length line.1 = length line.2)
  then OK (n, st.2 ++ [(line.1, line.2, color)])
  else Raise ValueError.

(** [Steinhaus.makePlot]. *)
Definition makePlot (rnd : nat -> Qc) (s : Steinhaus)
    (outputFilename : string) (level : Z) (plotGrid randomColor : bool)
    (n : nat) : result (figure * nat) :=
  m ← getitem (lines s) level;
  st ← for_each
         (fun st (kg : string * geometry) =>
            for_each (plot_line rnd randomColor) (zip kg.2.1 kg.2.2) st)
         (map_to_list m) (n, []);
  OK (mkFigure outputFilename plotGrid st.2, st.1).

(** [main]: the curve, then two figures for each level
    [1 .. s.level]. *)
Definition main_figures (rnd : nat -> Qc)
    (TopLeftPattern_X TopLeftPattern_Y : array) (nLevel : Z)
  : result (list figure) :=
  s ← Steinhaus_init nLevel TopLeftPattern_X TopLeftPattern_Y;
  st ← for_each
         (fun (st : list figure * nat) i =>
            f1 ← makePlot rnd s ("Steinhaus_" +:+ str i +:+ ".svg") i
                    false false st.2;
            f2 ← makePlot rnd s ("Steinhaus_" +:+ str i +:+ ".png") i
                    false false f1.2;
            OK (st.1 ++ [f1.1; f2.1], f2.2))
         (range 1 (level s + 1)) ([], 0%nat);
  OK st.1.

(** The polylines of a level, in the order [makePlot] meets them. *)
Definition level_lines (m : gmap string geometry) : list (array * array) :=
  kg ← map_to_list m; zip kg.2.1 kg.2.2.

(** * Verification *)

(** ** Error monad lemmas *)

Lemma bind_OK {A B} (f : A -> result B) (a : A) : (OK a ≫= f) = f a.
Proof. reflexivity. Qed.

Lemma getitem_Some `{Countable K} {V} (d : gmap K V) k v :
  d !! k = Some v -> getitem d k = OK v.
Proof. unfold getitem. by intros ->. Qed.

(** ** Geometry utilities *)

Section line.
Variables a b c : Qc.

Lemma symmetrize_step_spec acc p :
  a ^ 2 + b ^ 2 <> 0 ->
  symmetrize_step a b c (1 / (a ^ 2 + b ^ 2)) acc p
  = (acc.1 ++ [(reflect_point a b c p).1],
     acc.2 ++ [(reflect_point a b c p).2]).
Proof.
  intros Hd. unfold symmetrize_step, reflect_point.
  cbn [Qcpower fst snd] in *.
  assert (a * a + b * b <> 0) by (intros E; apply Hd; rewrite <- E; ring).
  f_equal; f_equal; f_equal; field; assumption.
Qed.

Lemma symmetrize_loop ps acc :
  a ^ 2 + b ^ 2 <> 0 ->
  foldl (symmetrize_step a b c (1 / (a ^ 2 + b ^ 2))) acc ps
  = (acc.1 ++ (reflect_points a b c ps).*1,
     acc.2 ++ (reflect_points a b c ps).*2).
Proof.
  intros Hd. revert acc.
  induction ps as [|p ps IH]; intros [Xs Ys]; simpl.
  - by rewrite !app_nil_r.
  - rewrite IH, symmetrize_step_spec by done. simpl.
    by rewrite <- !app_assoc.
Qed.

Lemma symmetrize_OK X Y :
  a ^ 2 + b ^ 2 <> 0 ->
  symmetrize a b c X Y
  = OK ((reflect_points a b c (zip X Y)).*1,
        (reflect_points a b c (zip X Y)).*2).
Proof.
  intros Hd. unfold symmetrize.
  destruct (decide (a ^ 2 + b ^ 2 = 0)) as [E|_]; [done|].
  by rewrite symmetrize_loop.
Qed.

Lemma reflect_point_involutive p :
  a ^ 2 + b ^ 2 <> 0 ->
  reflect_point a b c (reflect_point a b c p) = p.
Proof.
  intros Hd. destruct p as [x y]. unfold reflect_point.
  cbn [Qcpower fst snd] in *.
  assert (a * a + b * b <> 0) by (intros E; apply Hd; rewrite <- E; ring).
  f_equal; field; assumption.
Qed.

Lemma reflect_points_involutive ps :
  a ^ 2 + b ^ 2 <> 0 ->
  reflect_points a b c (reflect_points a b c ps) = ps.
Proof.
  intros Hd. unfold reflect_points. rewrite <- list_fmap_compose.
  rewrite <- (list_fmap_id ps) at 2. apply list_fmap_ext.
  intros _ p _. simpl. by apply reflect_point_involutive.
Qed.
End line.

(** C6.  For every line with [a^2 + b^2 <> 0], [symmetrize] (the
    specification's [reflect]) returns, in order, the mirror image
    [2 * proj - p] of each point [p] of [zip(X, Y)], where
    [proj = p - ((a p.x + b p.y + c) / (a^2 + b^2)) (a, b)].  The function
    is pure: it builds fresh result lists from [(a, b, c, X, Y)] and never
    writes to its arguments. *)
Theorem symmetrize_reflects (a b c : Qc) (X Y : array) :
  a ^ 2 + b ^ 2 <> 0 ->
  symmetrize a b c X Y
  = OK ((reflect_point a b c <$> zip X Y).*1,
        (reflect_point a b c <$> zip X Y).*2)
  /\ forall i x y, X !! i = Some x -> Y !! i = Some y ->
       exists Xs Ys, symmetrize a b c X Y = OK (Xs, Ys) /\
         let t := (a * x + b * y + c) / (a ^ 2 + b ^ 2) in
         Xs !! i = Some (2 * (x - t * a) - x) /\
         Ys !! i = Some (2 * (y - t * b) - y).
Proof.
  intros Hd. split; [by apply symmetrize_OK|].
  intros i x y Hx Hy. eexists _, _. split; [by apply symmetrize_OK|].
  assert (zip X Y !! i = Some (x, y)) as Hz.
  { apply lookup_zip_with_Some. eauto 6. }
  unfold reflect_points. simpl.
  by rewrite !list_lookup_fmap, Hz.
Qed.

Lemma symmetrize_reflects_witness :
  (-1) ^ 2 + (-1) ^ 2 <> 0 /\
  symmetrize (-1) (-1) 0 default_X default_Y
  = OK ([q 0 1; q (-1) 4; q (-1) 2], [q 1 2; q 1 2; q 3 4]).
Proof.
  split; [compute_done|].
  destruct (symmetrize_reflects (-1) (-1) 0 default_X default_Y) as [-> _];
    [compute_done|].
  compute_done.
Defined.

(** C8.  Over exact arithmetic, reflecting twice over the same line
    [a x + b y + c = 0] with [a^2 + b^2 <> 0] gives back the original point
    sequence. *)
Theorem symmetrize_involutive (a b c : Qc) (ps : list (Qc * Qc)) :
  a ^ 2 + b ^ 2 <> 0 ->
  (symmetrize a b c ps.*1 ps.*2 ≫= fun r => symmetrize a b c r.1 r.2)
  = OK (ps.*1, ps.*2).
Proof.
  intros Hd. rewrite symmetrize_OK, bind_OK by done. cbn [fst snd].
  rewrite symmetrize_OK by done.
  by rewrite !zip_fst_snd, reflect_points_involutive.
Qed.

Lemma symmetrize_involutive_witness :
  1 ^ 2 + (-1) ^ 2 <> 0 /\
  (symmetrize 1 (-1) 1 default_X default_Y
     ≫= fun r => symmetrize 1 (-1) 1 r.1 r.2)
  = OK (default_X, default_Y).
Proof.
  split; [compute_done|].
  exact (symmetrize_involutive 1 (-1) 1 (zip default_X default_Y)
           ltac:(compute_done)).
Defined.

(** C9 (as the code has it).  On a degenerate line, [a^2 + b^2 = 0], the
    division that computes [den] raises [ZeroDivisionError] before the loop
    over the points starts: the call fails for every point sequence, the
    empty one included. *)
Theorem symmetrize_degenerate (a b c : Qc) (X Y : array) :
  a ^ 2 + b ^ 2 = 0 ->
  symmetrize a b c X Y = Raise ZeroDivisionError.
Proof.
  intros Hd. unfold symmetrize. by destruct (decide _).
Qed.

Lemma symmetrize_degenerate_witness :
  (0 : Qc) ^ 2 + 0 ^ 2 = 0 /\
  symmetrize 0 0 1 [] [] = Raise ZeroDivisionError.
Proof.
  split; [compute_done|].
  apply symmetrize_degenerate. compute_done.
Defined.

(** ** The four orientations *)

Lemma elem_of_ids (k : Z) :
  k ∈ [1; 2; 3; 4]%Z -> (k = 1 \/ k = 2 \/ k = 3 \/ k = 4)%Z.
Proof.
  intros Hk. repeat (apply elem_of_cons in Hk as [Hk|Hk]; [auto|]).
  by apply elem_of_nil in Hk.
Qed.

Lemma generateSymmetries_OK (DX DY : gmap Z array) x y :
  DX !! 1%Z = Some x -> DY !! 1%Z = Some y ->
  generateSymmetries DX DY = OK (symmetries_X DX x, symmetries_Y DY y).
Proof.
  intros Hx Hy. unfold generateSymmetries, getitem.
  rewrite Hx, Hy. simpl.
  rewrite !lookup_insert_ne, Hx, Hy by done. simpl.
  rewrite !lookup_insert_ne, Hx, Hy by done. simpl.
  done.
Qed.

Lemma symmetries_X_lookup (DX : gmap Z array) x k :
  DX !! 1%Z = Some x -> k ∈ [1; 2; 3; 4]%Z ->
  symmetries_X DX x !! k
  = Some (if decide (k = 1)%Z then x
          else if decide (k = 3)%Z then flipud x else flipud (neg x)).
Proof.
  intros Hx Hk. unfold symmetries_X.
  apply elem_of_ids in Hk as [-> | [-> | [-> | ->]]]; simpl.
  all: by repeat first
    [rewrite lookup_insert_eq | rewrite lookup_insert_ne by done].
Qed.

Lemma symmetries_Y_lookup (DY : gmap Z array) y k :
  DY !! 1%Z = Some y -> k ∈ [1; 2; 3; 4]%Z ->
  symmetries_Y DY y !! k
  = Some (if decide (k = 1)%Z then y
          else if decide (k = 2)%Z then flipud y else flipud (neg y)).
Proof.
  intros Hy Hk. unfold symmetries_Y.
  apply elem_of_ids in Hk as [-> | [-> | [-> | ->]]]; simpl.
  all: by repeat first
    [rewrite lookup_insert_eq | rewrite lookup_insert_ne by done].
Qed.

Lemma orientation_fst k seed :
  (orientation k seed).*1
  = if decide (k = 1)%Z then seed.*1
    else if decide (k = 3)%Z then flipud seed.*1 else flipud (neg seed.*1).
Proof.
  unfold orientation, flipud, neg.
  repeat case_decide; try lia; try done;
    rewrite fmap_reverse, <- !list_fmap_compose; done.
Qed.

Lemma orientation_snd k seed :
  (orientation k seed).*2
  = if decide (k = 1)%Z then seed.*2
    else if decide (k = 2)%Z then flipud seed.*2 else flipud (neg seed.*2).
Proof.
  unfold orientation, flipud, neg.
  repeat case_decide; try lia; try done;
    rewrite fmap_reverse, <- !list_fmap_compose; done.
Qed.

Lemma orientation_length k seed : length (orientation k seed) = length seed.
Proof.
  unfold orientation.
  repeat case_decide; by rewrite ?length_reverse, ?length_fmap.
Qed.

(** C7.  [generateSymmetries] (the specification's
    [buildFourOrientations]) keeps orientation 1, the seed, and stores at 2
    the seed in reverse point order with X negated, at 3 the reversal with
    Y negated and at 4 the reversal with both negated; every orientation
    has as many points as the seed. *)
Theorem generateSymmetries_orientations
    (DX DY : gmap Z array) (seed : list (Qc * Qc)) :
  DX !! 1%Z = Some seed.*1 -> DY !! 1%Z = Some seed.*2 ->
  exists DX' DY',
    generateSymmetries DX DY = OK (DX', DY') /\
    (DX' !! 1%Z = Some seed.*1 /\ DY' !! 1%Z = Some seed.*2) /\
    (DX' !! 2%Z = Some (reverse (Qcopp <$> seed.*1)) /\
     DY' !! 2%Z = Some (reverse seed.*2)) /\
    (DX' !! 3%Z = Some (reverse seed.*1) /\
     DY' !! 3%Z = Some (reverse (Qcopp <$> seed.*2))) /\
    (DX' !! 4%Z = Some (reverse (Qcopp <$> seed.*1)) /\
     DY' !! 4%Z = Some (reverse (Qcopp <$> seed.*2))) /\
    forall k, k ∈ [1; 2; 3; 4]%Z ->
      DX' !! k = Some (orientation k seed).*1 /\
      DY' !! k = Some (orientation k seed).*2 /\
      length (orientation k seed) = length seed.
Proof.
  intros Hx Hy. eexists _, _. split; [by apply generateSymmetries_OK|].
  repeat split;
    try (rewrite symmetries_X_lookup by (done || set_solver); done);
    try (rewrite symmetries_Y_lookup by (done || set_solver); done).
  - rewrite symmetries_X_lookup, orientation_fst by done. done.
  - rewrite symmetries_Y_lookup, orientation_snd by done. done.
  - apply orientation_length.
Qed.

Lemma generateSymmetries_orientations_witness :
  ({[1%Z := default_X]} : gmap Z array) !! 1%Z
  = Some (zip default_X default_Y).*1 /\
  ({[1%Z := default_Y]} : gmap Z array) !! 1%Z
  = Some (zip default_X default_Y).*2 /\
  exists DX' DY',
    generateSymmetries {[1%Z := default_X]} {[1%Z := default_Y]}
    = OK (DX', DY') /\
    DX' !! 2%Z = Some [q 3 4; q 1 2; q 1 2] /\
    DY' !! 2%Z = Some [q 1 2; q 1 4; q 0 1].
Proof.
  assert (({[1%Z := default_X]} : gmap Z array) !! 1%Z
          = Some (zip default_X default_Y).*1) as Hx by reflexivity.
  assert (({[1%Z := default_Y]} : gmap Z array) !! 1%Z
          = Some (zip default_X default_Y).*2) as Hy by reflexivity.
  split; [exact Hx|]. split; [exact Hy|].
  destruct (generateSymmetries_orientations _ _ _ Hx Hy)
    as (DX' & DY' & Hgen & _ & [H2x H2y] & _).
  exists DX', DY'. split; [exact Hgen|].
  rewrite H2x, H2y. split; compute_done.
Defined.

(** ** Pattern library *)

Lemma symmetries_X_singleton x :
  symmetries_X {[1%Z := x]} x !! 1%Z = Some x.
Proof.
  by rewrite symmetries_X_lookup by (by simplify_map_eq || set_solver).
Qed.

Lemma symmetries_Y_singleton y :
  symmetries_Y {[1%Z := y]} y !! 1%Z = Some y.
Proof.
  by rewrite symmetries_Y_lookup by (by simplify_map_eq || set_solver).
Qed.

Lemma Pattern_init_OK (X Y : array) : Pattern_init X Y = OK (library X Y).
Proof.
  unfold Pattern_init, append, flipud at 1 2 3 4, drop_last.
  rewrite (symmetrize_OK (-1) (-1) 0 X Y) by compute_done. rewrite bind_OK.
  rewrite (generateSymmetries_OK _ _ _ _ (lookup_singleton_eq _ _)
             (lookup_singleton_eq _ _)), bind_OK.
  rewrite (symmetrize_OK 1 (-1) 1) by compute_done. rewrite bind_OK.
  rewrite (generateSymmetries_OK _ _ _ _ (lookup_singleton_eq _ _)
             (lookup_singleton_eq _ _)), bind_OK.
  unfold getitem. rewrite symmetries_X_singleton, symmetries_Y_singleton.
  rewrite !bind_OK.
  rewrite (symmetrize_OK 1 1 0) by compute_done. rewrite bind_OK.
  rewrite (generateSymmetries_OK _ _ _ _ (lookup_singleton_eq _ _)
             (lookup_singleton_eq _ _)), bind_OK.
  reflexivity.
Qed.

(** ** Strings as lists of characters *)

Lemma chars_app (s t : string) : chars (s +:+ t) = chars s ++ chars t.
Proof. induction s as [|c s IH]; simpl; [done|]. by rewrite <- IH. Qed.

Lemma chars_length (s : string) : String.length s = length (chars s).
Proof. induction s as [|c s IH]; simpl; auto. Qed.

Lemma chars_get (s : string) (n : nat) : String.get n s = chars s !! n.
Proof.
  revert n. induction s as [|c s IH]; intros [|n]; simpl; auto.
Qed.

Lemma chars_substring (s : string) (n : nat) :
  substring 0 n s = string_of_list_ascii (take n (chars s)).
Proof.
  revert n. induction s as [|c s IH]; intros [|n]; simpl; auto.
  by rewrite IH.
Qed.

Lemma chars_inj (s t : string) : chars s = chars t -> s = t.
Proof.
  intros E. rewrite <- (string_of_list_ascii_of_string s),
    <- (string_of_list_ascii_of_string t). by rewrite E.
Qed.

Lemma length_snoc (s : string) (c : ascii) :
  String.length (s +:+ String c EmptyString) = S (String.length s).
Proof. rewrite !chars_length, chars_app, length_app. simpl. lia. Qed.

Lemma from_end_1 (s : string) (c : ascii) :
  from_end (s +:+ String c EmptyString) 1 = OK c.
Proof.
  unfold from_end. rewrite length_snoc.
  destruct (decide _) as [_|]; [|lia].
  rewrite chars_get, chars_app, chars_length. simpl.
  by rewrite list_lookup_middle by lia.
Qed.

Lemma from_end_2 (s : string) (c' c : ascii) :
  from_end ((s +:+ String c' EmptyString) +:+ String c EmptyString) 2 = OK c'.
Proof.
  unfold from_end. rewrite !length_snoc.
  destruct (decide _) as [_|]; [|lia].
  rewrite chars_get, !chars_app, chars_length. simpl.
  rewrite <- app_assoc. simpl.
  by rewrite list_lookup_middle by lia.
Qed.

Lemma but_last_snoc (s : string) (c : ascii) :
  but_last (s +:+ String c EmptyString) = s.
Proof.
  unfold but_last. rewrite length_snoc, chars_substring, chars_app.
  replace (S (String.length s) - 1)%nat with (length (chars s))
    by (rewrite chars_length; lia).
  rewrite take_app_length. apply string_of_list_ascii_of_string.
Qed.

Lemma library_lookups X Y k :
  k ∈ [1; 2; 3; 4]%Z ->
  exists x y sx sy ex ey,
    (pattern_X (library X Y) !! k = Some x /\
     pattern_Y (library X Y) !! k = Some y /\
     patternS_X (library X Y) !! k = Some sx /\
     patternS_Y (library X Y) !! k = Some sy /\
     patternE_X (library X Y) !! k = Some ex /\
     patternE_Y (library X Y) !! k = Some ey) /\
    (length x = length (plain_seed X Y).1 /\
     length y = length (plain_seed X Y).2 /\
     length sx = length (start_seed X Y).1 /\
     length sy = length (start_seed X Y).2 /\
     length ex = length (end_seed X Y).1 /\
     length ey = length (end_seed X Y).2).
Proof.
  intros Hk. unfold library; cbn [pattern_X pattern_Y patternS_X patternS_Y
    patternE_X patternE_Y].
  eexists _, _, _, _, _, _. split.
  - repeat split;
      (apply symmetries_X_lookup || apply symmetries_Y_lookup);
      by rewrite ?lookup_singleton_eq.
  - unfold flipud, neg.
    repeat split; repeat case_decide;
      by rewrite ?length_reverse, ?length_fmap.
Qed.

Lemma seed_lengths X Y n :
  length X = n -> length Y = n ->
  ((length (plain_seed X Y).1 = 2 * n /\ length (plain_seed X Y).2 = 2 * n) /\
   (length (start_seed X Y).1 = 2 * (n - 1) /\
    length (start_seed X Y).2 = 2 * (n - 1)) /\
   (length (end_seed X Y).1 = 2 * (n - 1) /\
    length (end_seed X Y).2 = 2 * (n - 1)))%nat.
Proof.
  intros HX HY.
  assert (length (removelast X) = n - 1 /\ length (removelast Y) = n - 1)%nat
    as [HX' HY'].
  { rewrite !removelast_firstn_len, !length_take. lia. }
  assert ((length (start_seed X Y).1 = 2 * (n - 1) /\
           length (start_seed X Y).2 = 2 * (n - 1))%nat) as [HS1 HS2].
  { unfold start_seed, reflect_points. cbn [fst snd].
    rewrite !length_app, !length_reverse, !length_fmap, length_zip. lia. }
  split; [|split; [done|]].
  - unfold plain_seed, reflect_points. cbn [fst snd].
    rewrite !length_app, !length_reverse, !length_fmap, length_zip. lia.
  - unfold end_seed, reflect_points. cbn [fst snd].
    rewrite !length_fmap, length_zip. lia.
Qed.



(** ** Curve assembler: one node *)

Lemma pow2_nat (n : nat) : pow2 (Z.of_nat n) = 2 ^ n.
Proof.
  unfold pow2. destruct (decide _) as [_|]; [|lia]. by rewrite Nat2Z.id.
Qed.

Lemma get_library X Y k idParent level off nParent :
  k ∈ [1; 2; 3; 4]%Z ->
  get (library X Y) k idParent level off nParent
  = OK (if decide (is_junction k idParent nParent)
        then junction_node (library X Y) k (1 / pow2 (level - 1)) off
        else plain_node (library X Y) k (1 / pow2 (level - 1)) off).
Proof.
  intros Hk.
  destruct (library_lookups X Y k Hk)
    as (x & y & sx & sy & ex & ey & (Hx & Hy & Hsx & Hsy & Hex & Hey) & _).
  unfold get, getitem, junction_node, plain_node.
  rewrite !lookup_total_alt, Hx, Hy, Hsx, Hsy, Hex, Hey. cbn [default].
  destruct (decide (is_junction k idParent nParent)) as [Hj|Hj].
  - destruct Hj as [->|[-> ->]].
    + by rewrite bool_decide_eq_true_2.
    + rewrite (bool_decide_eq_true_2 (2 = 2)%Z),
        (bool_decide_eq_true_2 (idParent = idParent)) by done.
      by rewrite orb_true_r.
  - rewrite (bool_decide_eq_false_2 (k = 5 - idParent)%Z)
      by (intros ?; apply Hj; by left).
    destruct (bool_decide (nParent = 2%Z)) eqn:E1; [|done].
    destruct (bool_decide (idParent = k)) eqn:E2; [|done].
    apply bool_decide_eq_true in E1, E2. destruct Hj. right. done.
Qed.

Lemma digit_chars_elem c :
  c ∈ digit_chars ->
  exists k, k ∈ [1; 2; 3; 4]%Z /\ str k = String c EmptyString /\ int c = OK k
            /\ digit c = k.
Proof.
  unfold digit_chars. intros Hc.
  repeat (apply elem_of_cons in Hc as [->|Hc]);
    [exists 1%Z|exists 2%Z|exists 3%Z|exists 4%Z|by apply elem_of_nil in Hc];
    (split; [set_solver|done]).
Qed.

Lemma str_digit k :
  k ∈ [1; 2; 3; 4]%Z ->
  exists c, c ∈ digit_chars /\ str k = String c EmptyString /\ int c = OK k
            /\ digit c = k.
Proof.
  intros Hk. unfold digit_chars.
  apply elem_of_ids in Hk as [-> | [-> | [-> | ->]]];
    [exists "1"%char|exists "2"%char|exists "3"%char|exists "4"%char];
    (split; [set_solver|done]).
Qed.

(** [getOffset] against the offset of the specification. *)
Lemma getOffset_loop cs i acc :
  Forall (fun c => c ∈ digit_chars) cs ->
  for_each getOffset_step cs (i, acc)
  = OK ((i + length cs)%nat,
        (acc.1 + (offset_from i (digit <$> cs)).1,
         acc.2 + (offset_from i (digit <$> cs)).2)).
Proof.
  intros Hcs. revert i acc.
  induction Hcs as [|c cs Hc _ IH]; intros i [ox oy]; simpl.
  - rewrite Nat.add_0_r. do 2 f_equal. f_equal; ring.
  - destruct (digit_chars_elem c Hc) as (k & Hk & _ & Hint & Hd).
    rewrite Hint, bind_OK, Hd. cbv zeta. rewrite bind_OK, IH.
    replace (Z.of_nat i + 1)%Z with (Z.of_nat (i + 1)) by lia.
    rewrite pow2_nat. cbn [fst snd].
    replace (i + S (length cs))%nat with (S i + length cs)%nat by lia.
    unfold contribution. cbn [fst snd].
    generalize (1 / 2 ^ (i + 1)%nat). intros h.
    apply elem_of_ids in Hk as [-> | [-> | [-> | ->]]]; cbn [Z.odd];
      repeat case_decide; try (exfalso; (lia || done));
      by rewrite <- !Qcplus_assoc.
Qed.

Lemma getOffset_spec key d :
  address d key -> getOffset key = OK (offset_spec (digits key)).
Proof.
  intros [_ Hcs]. unfold getOffset, offset_spec, digits.
  rewrite getOffset_loop by done. rewrite bind_OK. cbn [snd fst].
  rewrite !Qcplus_0_l. by destruct (offset_from _ _).
Qed.

(** ** Addresses *)

Lemma address_snoc d key c :
  address d key -> c ∈ digit_chars ->
  address (S d) (key +:+ String c EmptyString).
Proof.
  intros [Hlen Hcs] Hc. split.
  - by rewrite length_snoc, Hlen.
  - rewrite chars_app. apply Forall_app. split; [done|]. simpl. by constructor.
Qed.

Lemma address_inv d s :
  address (S d) s ->
  exists key c,
    s = key +:+ String c EmptyString /\ address d key /\ c ∈ digit_chars.
Proof.
  intros [Hlen Hcs]. rewrite chars_length in Hlen.
  remember (chars s) as cs eqn:E. symmetry in E.
  destruct cs as [|c0 cs0 _] using rev_ind; [simpl in Hlen; lia|].
  rewrite length_app in Hlen. simpl in Hlen.
  apply Forall_app in Hcs as [Hcs Hc]. rewrite Forall_singleton in Hc.
  exists (string_of_list_ascii cs0), c0. split; [|split; [split|done]].
  - apply chars_inj.
    by rewrite chars_app, list_ascii_of_string_of_list_ascii, E.
  - rewrite chars_length, list_ascii_of_string_of_list_ascii. lia.
  - by rewrite list_ascii_of_string_of_list_ascii.
Qed.

Lemma address_0 s : address 0 s <-> s = EmptyString.
Proof.
  split.
  - intros [Hlen _]. by destruct s.
  - intros ->. split; [done|]. constructor.
Qed.

Lemma digits_snoc key c :
  digits (key +:+ String c EmptyString) = digits key ++ [digit c].
Proof. unfold digits. by rewrite chars_app, fmap_app. Qed.

Lemma digits_length key : length (digits key) = String.length key.
Proof. unfold digits. by rewrite length_fmap, chars_length. Qed.

Lemma node_state_snoc ds k :
  node_state (ds ++ [k]) = descend (node_state ds) k.
Proof. unfold node_state. by rewrite foldl_app. Qed.

Lemma resolve_snoc P ds k :
  resolve P (ds ++ [k])
  = if decide (is_junction k (node_state ds).1 (node_state ds).2)
    then junction_node P k (1 / 2 ^ length ds) (offset_spec ds)
    else plain_node P k (1 / 2 ^ length ds) (offset_spec ds).
Proof.
  unfold resolve. rewrite last_snoc, removelast_last, length_app. simpl.
  by replace (length ds + 1 - 1)%nat with (length ds) by lia.
Qed.

Lemma resolve_flag P ds k :
  Z.of_nat (length (resolve P (ds ++ [k])).1) = (node_state (ds ++ [k])).2.
Proof.
  rewrite resolve_snoc, node_state_snoc. unfold descend. cbn [snd].
  by destruct (decide _).
Qed.

(** [getFromKey] on a one-digit extension of an address, for any flag
    [nParent] it is called with. *)
Lemma getFromKey_general X Y d key k nParent :
  address (S d) key -> k ∈ [1; 2; 3; 4]%Z ->
  getFromKey (library X Y) (key +:+ str k) nParent
  = OK (if decide (is_junction k (node_state (digits key)).1 nParent)
        then junction_node (library X Y) k (1 / 2 ^ S d)
               (offset_spec (digits key))
        else plain_node (library X Y) k (1 / 2 ^ S d)
               (offset_spec (digits key))).
Proof.
  intros Hkey Hk.
  destruct (str_digit k Hk) as (c & Hc & -> & Hint & Hd).
  destruct (address_inv d key Hkey) as (key0 & c' & -> & Hkey0 & Hc').
  destruct (digit_chars_elem c' Hc') as (k' & Hk' & _ & Hint' & Hd').
  unfold getFromKey.
  rewrite from_end_1, bind_OK, Hint, bind_OK.
  rewrite from_end_2, bind_OK, Hint', bind_OK.
  rewrite but_last_snoc, (getOffset_spec _ (S d)), bind_OK by done.
  rewrite get_library by done.
  rewrite !length_snoc, digits_snoc, Hd', node_state_snoc.
  cbn [descend fst]. destruct Hkey0 as [-> _].
  replace (Z.of_nat (S (S d)) - 1)%Z with (Z.of_nat (S d)) by lia.
  by rewrite pow2_nat.
Qed.

(** Called as [generateLevel] does, with the number of polylines of the
    parent, it resolves the child as the specification says. *)
Lemma getFromKey_spec X Y d key k :
  address (S d) key -> k ∈ [1; 2; 3; 4]%Z ->
  getFromKey (library X Y) (key +:+ str k)
    (Z.of_nat (length (resolve (library X Y) (digits key)).1))
  = OK (resolve (library X Y) (digits (key +:+ str k))).
Proof.
  intros Hkey Hk. rewrite (getFromKey_general X Y d) by done.
  destruct (str_digit k Hk) as (c & Hc & -> & _ & Hd).
  destruct (address_inv d key Hkey) as (key0 & c' & E & _ & _).
  rewrite (digits_snoc key c), Hd, resolve_snoc.
  rewrite digits_length. destruct Hkey as [-> _].
  rewrite E, digits_snoc, resolve_flag. by rewrite <- digits_snoc, <- E.
Qed.

(** ** Curve assembler: one level *)

Lemma range_1_5 : range 1 5 = [1; 2; 3; 4]%Z.
Proof. reflexivity. Qed.

Lemma foldl_insert_Some {A} (f : A -> string) (g : A -> geometry) l
    (m0 : gmap string geometry) s v :
  foldl (fun m k => <[f k := g k]> m) m0 l !! s = Some v ->
  (exists k, k ∈ l /\ s = f k /\ v = g k) \/ m0 !! s = Some v.
Proof.
  revert m0. induction l as [|k l IH]; intros m0; simpl; [by right|].
  intros H. apply IH in H as [(k' & Hk' & -> & ->)|H].
  - left. exists k'. split; [by right|done].
  - apply lookup_insert_Some in H as [[<- <-]|[_ H]]; [|by right].
    left. exists k. split; [by left|done].
Qed.

Lemma foldl_insert_is_Some {A} (f : A -> string) (g : A -> geometry) l
    (m0 : gmap string geometry) s :
  is_Some (foldl (fun m k => <[f k := g k]> m) m0 l !! s) <->
  (exists k, k ∈ l /\ s = f k) \/ is_Some (m0 !! s).
Proof.
  revert m0. induction l as [|k l IH]; intros m0; simpl.
  - split; [by right|]. intros [(k & Hk & _)|H]; [|done].
    by apply elem_of_nil in Hk.
  - rewrite IH, lookup_insert_is_Some'. split.
    + intros [(k' & Hk' & ->)|[<-|H]]; [left|left|by right].
      * exists k'. split; [by right|done].
      * exists k. split; [by left|done].
    + intros [(k' & Hk' & ->)|H]; [|by right; right].
      apply elem_of_cons in Hk' as [->|Hk']; [right; by left|].
      left. by exists k'.
Qed.

Section assembler.
Variables X Y : array.
Let P := library X Y.

Lemma kids_well_valued key : well_valued P (kids P key).
Proof.
  intros s v H. unfold kids in H.
  apply foldl_insert_Some in H as [(k & _ & -> & ->)|H]; [done|].
  by rewrite lookup_empty in H.
Qed.

Lemma kids_is_Some key s :
  is_Some (kids P key !! s) <->
  exists k, k ∈ [1; 2; 3; 4]%Z /\ s = key +:+ str k.
Proof.
  unfold kids. rewrite foldl_insert_is_Some, lookup_empty. split.
  - intros [H|H]; [done|]. by apply is_Some_None in H.
  - by left.
Qed.

Lemma children_spec d key :
  address (S d) key ->
  children P key (resolve P (digits key)) = OK (kids P key).
Proof.
  intros Hkey. unfold children, kids. rewrite range_1_5.
  cbn [for_each foldl].
  rewrite !(getFromKey_spec X Y d key) by (done || set_solver).
  reflexivity.
Qed.

Lemma well_valued_union (m1 m2 : gmap string geometry) :
  well_valued P m1 -> well_valued P m2 -> well_valued P (m1 ∪ m2).
Proof.
  intros H1 H2 s v H. apply lookup_union_Some_raw in H as [H|[_ H]]; eauto.
Qed.

Lemma gathered_well_valued l cur :
  well_valued P cur -> well_valued P (gathered P l cur).
Proof.
  revert cur. induction l as [|[key g] l IH]; intros cur Hcur; [done|].
  apply IH, well_valued_union; [apply kids_well_valued|done].
Qed.

Lemma gathered_is_Some l cur s :
  is_Some (gathered P l cur !! s) <->
  (exists key, key ∈ l.*1 /\ is_Some (kids P key !! s))
  \/ is_Some (cur !! s).
Proof.
  revert cur. induction l as [|[key g] l IH]; intros cur.
  - simpl. split; [by right|]. intros [(key & Hkey & _)|H]; [|done].
    by apply elem_of_nil in Hkey.
  - unfold gathered in *. cbn [foldl fmap list_fmap fst].
    rewrite IH. rewrite lookup_union_is_Some. split.
    + intros [(key' & Hk' & H)|[H|H]]; [left|left|by right].
      * exists key'. split; [by right|done].
      * exists key. split; [by left|done].
    + intros [(key' & Hk' & H)|H]; [|by right; right].
      apply elem_of_cons in Hk' as [->|Hk']; [right; by left|].
      left. by exists key'.
Qed.

Lemma gathered_level_ok d l :
  (forall key, key ∈ l.*1 <-> address d key) ->
  level_ok P (S d) (gathered P l ∅).
Proof.
  intros Hl s.
  assert (well_valued P (gathered P l ∅)) as Hwv.
  { apply gathered_well_valued. intros ? ? H. by rewrite lookup_empty in H. }
  destruct (decide (address (S d) s)) as [Hs|Hs].
  - destruct (address_inv d s Hs) as (key & c & -> & Hkey & Hc).
    destruct (digit_chars_elem c Hc) as (k & Hk & Hstr & _).
    assert (is_Some (gathered P l ∅ !! (key +:+ String c EmptyString)))
      as [v Hv].
    { apply gathered_is_Some. left. exists key. split; [by apply Hl|].
      apply kids_is_Some. exists k. by rewrite Hstr. }
    rewrite Hv. f_equal. by apply Hwv.
  - apply eq_None_not_Some. intros H. apply Hs.
    apply gathered_is_Some in H as [(key & Hkey & H)|H].
    + apply kids_is_Some in H as (k & Hk & ->).
      destruct (str_digit k Hk) as (c & Hc & -> & _).
      apply address_snoc; [by apply Hl|done].
    + rewrite lookup_empty in H. by apply is_Some_None in H.
Qed.
End assembler.

(** ** Curve assembler: all levels *)

Section levels.
Variables X Y : array.
Let P := library X Y.

Lemma level_loop n l (lines : gmap Z (gmap string geometry)) cur :
  lines !! n = Some cur ->
  (forall key g, (key, g) ∈ l ->
     (exists d, address (S d) key) /\ g = resolve P (digits key)) ->
  for_each
    (fun (lines : gmap Z (gmap string geometry)) '(key, parent) =>
       new ← children P key parent;
       cur ← getitem lines n;
       OK (<[n := new ∪ cur]> lines)) l lines
  = OK (<[n := gathered P l cur]> lines).
Proof.
  revert lines cur. induction l as [|[key g] l IH]; intros lines cur Hn Hl.
  - simpl. by rewrite insert_id.
  - destruct (Hl key g) as [[d Hkey] ->]; [by left|].
    cbn [for_each]. rewrite (children_spec X Y d) by done.
    rewrite bind_OK, (getitem_Some lines n cur Hn), !bind_OK.
    rewrite (IH _ (kids P key ∪ cur)).
    + by rewrite insert_insert_eq.
    + by rewrite lookup_insert_eq.
    + intros key' g' H. apply Hl. by right.
Qed.

Lemma level_ok_lookup d (m : gmap string geometry) key g :
  level_ok P d m -> m !! key = Some g ->
  address d key /\ g = resolve P (digits key).
Proof.
  intros Hm H. rewrite Hm in H. destruct (decide _); [|done].
  by injection H as <-.
Qed.

Lemma generateLevel_spec (lines : gmap Z (gmap string geometry)) d prev :
  lines !! Z.of_nat (S d) = Some prev -> level_ok P (S d) prev ->
  generateLevel P lines (Z.of_nat (S (S d)))
  = OK (<[Z.of_nat (S (S d)) := gathered P (map_to_list prev) ∅]> lines)
  /\ level_ok P (S (S d)) (gathered P (map_to_list prev) ∅).
Proof.
  intros Hprev Hok. split.
  - unfold generateLevel.
    replace (Z.of_nat (S (S d)) - 1)%Z with (Z.of_nat (S d)) by lia.
    rewrite (getitem_Some _ _ prev), bind_OK
      by (by rewrite lookup_insert_ne by lia).
    rewrite (level_loop _ _ _ ∅).
    + by rewrite insert_insert_eq.
    + by rewrite lookup_insert_eq.
    + intros key g H. apply elem_of_map_to_list in H.
      destruct (level_ok_lookup _ _ _ _ Hok H) as [Hkey ->]. eauto.
  - apply gathered_level_ok. intros key. rewrite list_elem_of_fmap. split.
    + intros ([key' g] & -> & H). apply elem_of_map_to_list in H.
      by destruct (level_ok_lookup _ _ _ _ Hok H).
    + intros Hkey. exists (key, resolve P (digits key)). split; [done|].
      apply elem_of_map_to_list. rewrite Hok. by rewrite decide_True.
Qed.

Lemma levels_loop n j (lines : gmap Z (gmap string geometry)) :
  (1 <= j)%nat -> levels_ok P j lines ->
  exists lines',
    for_each (generateLevel P) (seqZ (Z.of_nat j + 1) (Z.of_nat n)) lines
    = OK lines' /\ levels_ok P (j + n) lines'.
Proof.
  revert j lines. induction n as [|n IH]; intros j lines Hj Hok.
  - exists lines. split; [done|]. by rewrite Nat.add_0_r.
  - rewrite seqZ_cons by lia. cbn [for_each].
    destruct j as [|j]; [lia|].
    destruct Hok as [Hlev Hnone].
    destruct (Hlev (S j)) as (prev & Hprev & Hprev_ok); [lia|].
    destruct (generateLevel_spec lines j prev Hprev Hprev_ok)
      as [Hgen Hnew].
    replace (Z.of_nat (S j) + 1)%Z with (Z.of_nat (S (S j))) by lia.
    rewrite Hgen, bind_OK.
    replace (Z.succ (Z.of_nat (S (S j)))) with (Z.of_nat (S (S j)) + 1)%Z
      by lia.
    replace (Z.pred (Z.of_nat (S n))) with (Z.of_nat n) by lia.
    destruct (IH (S (S j))
                (<[Z.of_nat (S (S j)) := gathered P (map_to_list prev) ∅]>
                   lines)) as (lines' & Hloop & Hok'); [lia| |].
    + split.
      * intros d Hd. destruct (decide (d = S (S j))) as [->|Hne].
        -- eexists. by rewrite lookup_insert_eq.
        -- rewrite lookup_insert_ne by lia. apply Hlev. lia.
      * intros z Hz. rewrite lookup_insert_ne by lia. apply Hnone. lia.
    + exists lines'. split; [done|].
      by replace (S j + S n)%nat with (S (S j) + n)%nat by lia.
Qed.

Lemma level1_spec :
  for_each
    (fun (d : gmap string geometry) k =>
       g ← get P k 0 1 (0, 0) 1; OK (<[str k := g]> d)) (range 1 5) ∅
  = OK (kids P EmptyString) /\ level_ok P 1 (kids P EmptyString).
Proof.
  split.
  - rewrite range_1_5. unfold kids. cbn [for_each foldl].
    rewrite !(get_library X Y) by set_solver. rewrite !bind_OK.
    reflexivity.
  - assert (kids P EmptyString
            = gathered P [(EmptyString, ([], []))] ∅) as ->.
    { unfold gathered. simpl. by rewrite (right_id_L ∅ (∪)). }
    apply gathered_level_ok. intros key. rewrite address_0. simpl.
    rewrite list_elem_of_singleton. done.
Qed.

Lemma Steinhaus_init_spec nLevel :
  exists ls,
    Steinhaus_init nLevel X Y = OK (mkSteinhaus nLevel P ls) /\
    levels_ok P (depth nLevel) ls.
Proof.
  unfold Steinhaus_init. rewrite Pattern_init_OK, bind_OK. cbv beta.
  fold P. destruct level1_spec as [-> Hok1]. rewrite bind_OK. cbv beta zeta.
  assert (range 2 (nLevel + 1)
          = seqZ (Z.of_nat 1 + 1) (Z.of_nat (Z.to_nat (nLevel - 1)))) as ->.
  { unfold range. destruct (decide (0 <= nLevel - 1)%Z).
    - rewrite Z2Nat.id by done. f_equal. lia.
    - rewrite !seqZ_nil by lia. done. }
  destruct (levels_loop (Z.to_nat (nLevel - 1)) 1 {[1%Z := kids P EmptyString]})
    as (ls & -> & Hok); [lia| |].
  - split.
    + intros d Hd. assert (d = 1%nat) as -> by lia.
      exists (kids P EmptyString). by rewrite lookup_singleton_eq.
    + intros z Hz. apply lookup_singleton_ne. lia.
  - exists ls. rewrite bind_OK. split; [done|].
    by replace (depth nLevel) with (1 + Z.to_nat (nLevel - 1))%nat
      by (unfold depth; lia).
Qed.
End levels.

(** ** Counting addresses *)

Lemma address_cons d c t :
  address (S d) (String c t) <-> c ∈ digit_chars /\ address d t.
Proof.
  unfold address. simpl. rewrite Forall_cons. split.
  - intros [[= Hlen] [Hc Ht]]. done.
  - intros [Hc [<- Ht]]. done.
Qed.

Lemma address_app d e a t :
  address d a -> address (d + e) (a +:+ t) <-> address e t.
Proof.
  intros [Hlen Ha]. unfold address.
  rewrite !chars_length, chars_app, length_app, Forall_app.
  rewrite chars_length in Hlen. split.
  - intros [? [_ ?]]. split; [lia|done].
  - intros [? ?]. split; [lia|done].
Qed.

Lemma elem_of_all_keys d key : key ∈ all_keys d <-> address d key.
Proof.
  revert key. induction d as [|d IH]; intros key.
  - simpl. by rewrite list_elem_of_singleton, address_0.
  - cbn [all_keys]. rewrite list_elem_of_bind. split.
    + intros (c & Hkey & Hc). apply list_elem_of_fmap in Hkey as (t & -> & Ht).
      apply address_cons. split; [done|]. by apply IH.
    + destruct key as [|c t]; [by intros [[=] _]|].
      intros [Hc Ht]%address_cons. exists c. split; [|done].
      apply list_elem_of_fmap. exists t. split; [done|]. by apply IH.
Qed.

Lemma NoDup_all_keys d : NoDup (all_keys d).
Proof.
  induction d as [|d IH]; [apply NoDup_singleton|].
  cbn [all_keys]. apply NoDup_bind.
  - intros c1 c2 s _ _ (t1 & -> & _)%list_elem_of_fmap
      (t2 & [= -> _] & _)%list_elem_of_fmap. done.
  - intros c _. apply NoDup_fmap_2; [|done]. by intros t1 t2 [=].
  - compute_done.
Qed.

Lemma length_all_keys d : length (all_keys d) = (4 ^ d)%nat.
Proof.
  induction d as [|d IH]; [done|].
  cbn [all_keys digit_chars mbind list_bind]. 
  rewrite !length_app, !length_fmap, IH. simpl. lia.
Qed.

Lemma extends_app a key : extends a key <-> exists t, key = a +:+ t.
Proof.
  unfold extends. revert key. induction a as [|c a IH]; intros key.
  - split; [by exists key|]. by destruct key.
  - destruct key as [|c' key]; simpl.
    + split; [done|]. by intros [t [=]].
    + destruct (ascii_dec c c') as [->|Hne].
      * rewrite IH. split; intros [t Ht]; exists t.
        -- by rewrite Ht.
        -- by injection Ht.
      * split; [done|]. intros [t [= -> _]]. done.
Qed.

Section counting.
Variable P : Pattern.

Lemma level_ok_dom d (m : gmap string geometry) :
  level_ok P d m -> dom m = list_to_set (all_keys d).
Proof.
  intros Hm. apply set_eq. intros key.
  rewrite elem_of_dom, elem_of_list_to_set, elem_of_all_keys, Hm.
  destruct (decide (address d key)); split; try done.
Qed.

Lemma level_ok_size d (m : gmap string geometry) :
  level_ok P d m -> size m = (4 ^ d)%nat.
Proof.
  intros Hm. rewrite <- size_dom, (level_ok_dom d m Hm).
  rewrite size_list_to_set by apply NoDup_all_keys.
  apply length_all_keys.
Qed.

Lemma level_ok_elem_of d (m : gmap string geometry) key :
  level_ok P d m -> key ∈ dom m <-> address d key.
Proof.
  intros Hm. by rewrite (level_ok_dom d m Hm), elem_of_list_to_set,
    elem_of_all_keys.
Qed.

Lemma level_ok_descendants d e (m : gmap string geometry) a :
  level_ok P (d + e) m -> address d a ->
  size (filter (extends a) (dom m)) = (4 ^ e)%nat.
Proof.
  intros Hm Ha.
  assert (filter (extends a) (dom m)
          = list_to_set (String.append a <$> all_keys e)) as ->.
  { apply set_eq. intros key.
    rewrite elem_of_filter, (level_ok_elem_of _ _ _ Hm),
      elem_of_list_to_set, list_elem_of_fmap, extends_app.
    split.
    - intros [[t ->] Hkey]. exists t. split; [done|].
      apply elem_of_all_keys. by apply (address_app d e a t).
    - intros (t & -> & Ht). split; [by exists t|].
      apply (address_app d e a t); [done|]. by apply elem_of_all_keys. }
  rewrite size_list_to_set, length_fmap; [apply length_all_keys|].
  apply NoDup_fmap_2; [apply _|apply NoDup_all_keys].
Qed.
End counting.

(** ** The assembled curve *)

Lemma scale_0 : 1 / 2 ^ 0%nat = 1.
Proof. compute_done. Qed.

Lemma not_junction_root k : k ∈ [1; 2; 3; 4]%Z -> ~ is_junction k 0 1.
Proof.
  intros Hk [->|[? _]]; [|done].
  apply elem_of_ids in Hk. lia.
Qed.

Lemma resolve_root P k :
  k ∈ [1; 2; 3; 4]%Z -> resolve P [k] = plain_node P k 1 (0, 0).
Proof.
  intros Hk. change [k] with ([] ++ [k]).
  rewrite (resolve_snoc P [] k). cbn [node_state foldl fst snd].
  rewrite decide_False by by apply not_junction_root.
  cbn [length]. by rewrite scale_0.
Qed.

Lemma Steinhaus_levels X Y nLevel d :
  (1 <= d <= depth nLevel)%nat ->
  exists ls m,
    Steinhaus_init nLevel X Y = OK (mkSteinhaus nLevel (library X Y) ls) /\
    ls !! Z.of_nat d = Some m /\ level_ok (library X Y) d m.
Proof.
  intros Hd. destruct (Steinhaus_init_spec X Y nLevel) as (ls & Hs & Hlev & _).
  destruct (Hlev d Hd) as (m & Hm & Hok). by exists ls, m.
Qed.

Lemma level_ok_1_entries P (m : gmap string geometry) key g :
  level_ok P 1 m -> m !! key = Some g ->
  exists k, k ∈ [1; 2; 3; 4]%Z /\ key = str k /\ g = plain_node P k 1 (0, 0).
Proof.
  intros Hm Hkey. rewrite Hm in Hkey.
  destruct (decide (address 1 key)) as [Ha|]; [|done].
  injection Hkey as <-.
  destruct (address_inv 0 key Ha) as (key0 & c & -> & ->%address_0 & Hc).
  destruct (digit_chars_elem c Hc) as (k & Hk & Hstr & _ & Hd).
  exists k. split; [done|]. split; [by rewrite Hstr|].
  rewrite digits_snoc, Hd. by apply resolve_root.
Qed.

Lemma level_ok_1_lookup P (m : gmap string geometry) k :
  level_ok P 1 m -> k ∈ [1; 2; 3; 4]%Z ->
  m !! str k = Some (plain_node P k 1 (0, 0)).
Proof.
  intros Hm Hk. destruct (str_digit k Hk) as (c & Hc & Hstr & _ & Hd).
  rewrite Hm, decide_True.
  - rewrite Hstr. change (String c EmptyString)
      with (EmptyString +:+ String c EmptyString).
    rewrite digits_snoc, Hd. f_equal. by apply resolve_root.
  - rewrite Hstr. change (String c EmptyString)
      with (EmptyString +:+ String c EmptyString).
    apply address_snoc; [by apply address_0|done].
Qed.

Lemma affine_placed scale a off : placed scale off a (affine scale a off).
Proof.
  unfold placed, affine. split; [apply length_fmap|].
  intros i v Hv. by rewrite list_lookup_fmap, Hv.
Qed.

Lemma pow2_nonneg (e : Z) : (0 <= e)%Z -> pow2 e = 2 ^ Z.to_nat e.
Proof. intros He. unfold pow2. by rewrite decide_True. Qed.

(** C1.  For a child with orientation id [k] in 1..4 at a level
    [1 <= lv <= 1024] (the levels at which the source's [1.0/2**(lv-1)] is
    a finite double and nothing is raised), [get] returns the connector
    junction exactly when [k = 5 - idParent], or [nParent = 2] and
    [k = idParent]: the connector-start and connector-end polylines of
    orientation [k], every coordinate [v] of which becomes
    [v / 2^(lv-1) + offset], with the X offset on the X arrays and the Y
    offset on the Y arrays.  Otherwise it returns the plain node, the
    single plain-pattern polyline of orientation [k] placed the same way.
    At level 1, built with [idParent = 0] and [nParent = 1], each of the
    four nodes is plain, with scale 1 and offset 0, and no connector
    junction occurs. *)
Theorem get_disambiguation (X Y : array) (k idParent lv : Z) (off : Qc * Qc)
    (nParent nLevel : Z) :
  k ∈ [1; 2; 3; 4]%Z -> (1 <= lv <= 1024)%Z ->
  exists P, Pattern_init X Y = OK P /\
    let scale := 1 / pow2 (lv - 1) in
    (exists x y sx sy ex ey,
       (pattern_X P !! k = Some x /\ pattern_Y P !! k = Some y /\
        patternS_X P !! k = Some sx /\ patternS_Y P !! k = Some sy /\
        patternE_X P !! k = Some ex /\ patternE_Y P !! k = Some ey) /\
       junction_node P k scale off
       = ([affine scale sx off.1; affine scale ex off.1],
          [affine scale sy off.2; affine scale ey off.2]) /\
       plain_node P k scale off
       = ([affine scale x off.1], [affine scale y off.2]) /\
       (is_junction k idParent nParent ->
        exists gsx gex gsy gey,
          get P k idParent lv off nParent = OK ([gsx; gex], [gsy; gey]) /\
          placed (1 / 2 ^ Z.to_nat (lv - 1)) off.1 sx gsx /\
          placed (1 / 2 ^ Z.to_nat (lv - 1)) off.1 ex gex /\
          placed (1 / 2 ^ Z.to_nat (lv - 1)) off.2 sy gsy /\
          placed (1 / 2 ^ Z.to_nat (lv - 1)) off.2 ey gey) /\
       (~ is_junction k idParent nParent ->
        exists gx gy,
          get P k idParent lv off nParent = OK ([gx], [gy]) /\
          placed (1 / 2 ^ Z.to_nat (lv - 1)) off.1 x gx /\
          placed (1 / 2 ^ Z.to_nat (lv - 1)) off.2 y gy)) /\
    (get P k idParent lv off nParent = OK (junction_node P k scale off)
     <-> is_junction k idParent nParent) /\
    (get P k idParent lv off nParent = OK (plain_node P k scale off)
     <-> ~ is_junction k idParent nParent) /\
    exists s m,
      Steinhaus_init nLevel X Y = OK s /\ lines s !! 1%Z = Some m /\
      m !! str k = Some (plain_node P k 1 (0, 0)) /\
      size m = 4%nat /\
      forall key g, m !! key = Some g ->
        length g.1 = 1%nat /\
        exists k', k' ∈ [1; 2; 3; 4]%Z /\ key = str k' /\
                   g = plain_node P k' 1 (0, 0) /\
                   exists x' y' gx gy,
                     pattern_X P !! k' = Some x' /\
                     pattern_Y P !! k' = Some y' /\
                     g = ([gx], [gy]) /\
                     placed 1 0 x' gx /\ placed 1 0 y' gy.
Proof.
  intros Hk Hlv. exists (library X Y). split; [apply Pattern_init_OK|].
  cbv zeta. split; [|split; [|split]].
  - destruct (library_lookups X Y k Hk)
      as (x & y & sx & sy & ex & ey & Hlook & _).
    exists x, y, sx, sy, ex, ey. split; [exact Hlook|].
    destruct Hlook as (Hx & Hy & Hsx & Hsy & Hex & Hey).
    rewrite get_library by done.
    rewrite <- (pow2_nonneg (lv - 1)) by lia.
    unfold junction_node, plain_node.
    rewrite !lookup_total_alt, Hx, Hy, Hsx, Hsy, Hex, Hey.
    cbn [default]. unfold id.
    split; [done|]. split; [done|]. split.
    + intros Hj. rewrite decide_True by done.
      eexists _, _, _, _. split; [done|].
      repeat split; apply affine_placed.
    + intros Hj. rewrite decide_False by done.
      eexists _, _. split; [done|]. split; apply affine_placed.
  - rewrite get_library by done.
    destruct (decide (is_junction k idParent nParent)) as [Hj|Hj].
    + done.
    + split; [|done].
      by intros H%(f_equal (fun r => match r with
                                    | OK g => length g.1
                                    | Raise _ => 0%nat
                                    end)).
  - rewrite get_library by done.
    destruct (decide (is_junction k idParent nParent)) as [Hj|Hj].
    + split; [|done].
      by intros H%(f_equal (fun r => match r with
                                    | OK g => length g.1
                                    | Raise _ => 0%nat
                                    end)).
    + done.
  - destruct (Steinhaus_levels X Y nLevel 1) as (ls & m & Hs & Hm & Hok).
    { unfold depth. lia. }
    eexists _, m. split; [exact Hs|]. split; [exact Hm|].
    split; [by apply level_ok_1_lookup|].
    split; [by rewrite (level_ok_size _ 1 m Hok)|].
    intros key g Hkey.
    destruct (level_ok_1_entries _ m key g Hok Hkey) as (k' & Hk' & -> & ->).
    split; [done|]. exists k'. split; [done|]. split; [done|].
    split; [done|].
    destruct (library_lookups X Y k' Hk')
      as (x' & y' & ? & ? & ? & ? & (Hx' & Hy' & _) & _).
    exists x', y'. unfold plain_node.
    rewrite !lookup_total_alt, Hx', Hy'. cbn [default fst snd]. unfold id.
    eexists _, _. split; [done|]. split; [done|]. split; [done|].
    split; apply affine_placed.
Qed.

Lemma get_disambiguation_witness :
  (3 ∈ [1; 2; 3; 4])%Z /\ (1 <= 2 <= 1024)%Z /\
  exists P, Pattern_init default_X default_Y = OK P /\
    (get P 3 2 2 (q (-1) 2, q 1 2) 1
     = OK (junction_node P 3 (1 / pow2 (2 - 1)) (q (-1) 2, q 1 2))
     <-> is_junction 3 2 1) /\
    exists gsx gex gsy gey,
      get P 3 2 2 (q (-1) 2, q 1 2) 1 = OK ([gsx; gex], [gsy; gey]) /\
      gsx !! 1%nat = Some (q (-7) 8) /\ gsy !! 2%nat = Some (q 3 8).
Proof.
  assert (3 ∈ [1; 2; 3; 4])%Z as Hk by compute_done.
  assert (1 <= 2 <= 1024)%Z as Hlv by lia.
  assert (is_junction 3 2 1) as Hjun by (by left).
  split; [exact Hk|]. split; [exact Hlv|].
  destruct (get_disambiguation default_X default_Y 3 2 2
              (q (-1) 2, q 1 2) 1 1 Hk Hlv)
    as (P & HP & (x & y & sx & sy & ex & ey & Hlook & _ & _ & Hj & _)
        & Hiff & _).
  exists P. split; [exact HP|]. split; [exact Hiff|].
  destruct (Hj Hjun) as (gsx & gex & gsy & gey & Hget & Hsx & _ & Hsy & _).
  exists gsx, gex, gsy, gey. split; [exact Hget|].
  destruct Hlook as (_ & _ & Lsx & Lsy & _).
  rewrite Pattern_init_OK in HP. injection HP as <-.
  assert (patternS_X (library default_X default_Y) !! 3%Z
          = Some [q (-1) 1; q (-3) 4; q (-1) 2; q (-1) 2]) as Esx
    by compute_done.
  assert (patternS_Y (library default_X default_Y) !! 3%Z
          = Some [q (-1) 2; q (-1) 2; q (-1) 4; q 0 1]) as Esy
    by compute_done.
  rewrite Esx in Lsx. rewrite Esy in Lsy.
  injection Lsx as <-. injection Lsy as <-.
  split.
  - rewrite (proj2 Hsx 1%nat (q (-3) 4) eq_refl). compute_done.
  - rewrite (proj2 Hsy 2%nat (q (-1) 4) eq_refl). compute_done.
Defined.

Lemma offset_from_imap j ds :
  offset_from j ds
  = foldr (fun c acc => (c.1 + acc.1, c.2 + acc.2)) (0, 0)
      (imap (fun i d => contribution (j + i) d) ds).
Proof.
  revert j. induction ds as [|d ds IH]; intros j; [done|].
  cbn [offset_from imap foldr]. rewrite Nat.add_0_r, IH.
  assert (imap ((fun i d => contribution (j + i) d) ∘ S) ds
          = imap (fun i d => contribution (S j + i) d) ds) as ->; [|done].
  apply imap_ext. intros i x _. simpl. f_equal. lia.
Qed.

(** C2.  The node at an address [key] of length [d] (digits 1 to 4) is
    stored at level [d] with the pattern-family polyline or polylines of its
    final digit [k], multiplied by [1 / 2^(d-1)] and translated by the
    offset accumulated over the digits before the final one: every
    coordinate [v] of a pattern array becomes [v / 2^(d-1) + offset], with
    the X offset on X arrays and the Y offset on Y arrays.  The digit at
    position [i] contributes [-1/2^(i+1)] to the X offset when odd and
    [+1/2^(i+1)] when even, and [+1/2^(i+1)] to the Y offset when less than
    3 and [-1/2^(i+1)] otherwise.  [getFromKey] computes that scale and
    offset for whatever flag it is given. *)
Theorem resolved_geometry (X Y : array) (nLevel : Z) (key : string)
    (d : nat) :
  address d key -> (1 <= d <= depth nLevel)%nat ->
  exists s m g,
    Steinhaus_init nLevel X Y = OK s /\
    lines s !! Z.of_nat d = Some m /\ m !! key = Some g /\
    exists prefix k,
      digits key = prefix ++ [k] /\ k ∈ [1; 2; 3; 4]%Z /\
      let scale := 1 / 2 ^ (d - 1)%nat in
      let offset := offset_spec prefix in
      (g = plain_node (pattern s) k scale offset \/
       g = junction_node (pattern s) k scale offset) /\
      g = resolve (pattern s) (digits key) /\
      offset
      = foldr (fun c acc => (c.1 + acc.1, c.2 + acc.2)) (0, 0)
          (imap (fun i digit =>
                   (if Z.odd digit then - (1 / 2 ^ (i + 1)%nat)
                    else 1 / 2 ^ (i + 1)%nat,
                    if decide (digit < 3)%Z then 1 / 2 ^ (i + 1)%nat
                    else - (1 / 2 ^ (i + 1)%nat))) prefix) /\
      (forall nParent, (2 <= d)%nat ->
         getFromKey (pattern s) key nParent
         = OK (plain_node (pattern s) k scale offset) \/
         getFromKey (pattern s) key nParent
         = OK (junction_node (pattern s) k scale offset)) /\
      exists x y sx sy ex ey,
        (pattern_X (pattern s) !! k = Some x /\
         pattern_Y (pattern s) !! k = Some y /\
         patternS_X (pattern s) !! k = Some sx /\
         patternS_Y (pattern s) !! k = Some sy /\
         patternE_X (pattern s) !! k = Some ex /\
         patternE_Y (pattern s) !! k = Some ey) /\
        ((exists gx gy,
            g = ([gx], [gy]) /\
            placed scale offset.1 x gx /\ placed scale offset.2 y gy) \/
         (exists gsx gex gsy gey,
            g = ([gsx; gex], [gsy; gey]) /\
            placed scale offset.1 sx gsx /\ placed scale offset.1 ex gex /\
            placed scale offset.2 sy gsy /\ placed scale offset.2 ey gey)).
Proof.
  intros Hkey Hd.
  destruct (Steinhaus_levels X Y nLevel d Hd) as (ls & m & Hs & Hm & Hok).
  eexists _, m, _. split; [exact Hs|]. split; [exact Hm|].
  split; [by rewrite Hok, decide_True|]. cbn [pattern].
  destruct d as [|d]; [lia|].
  destruct (address_inv d key Hkey) as (key0 & c & -> & Hkey0 & Hc).
  destruct (digit_chars_elem c Hc) as (k & Hk & Hstr & _ & Hdc).
  exists (digits key0), k. rewrite digits_snoc, Hdc.
  split; [done|]. split; [done|]. cbv zeta.
  rewrite resolve_snoc, digits_length.
  assert (String.length key0 = d) as -> by by destruct Hkey0.
  replace (S d - 1)%nat with d by lia.
  split; [destruct (decide _); [by right|by left]|]. split; [done|].
  split; [exact (offset_from_imap 0 (digits key0))|].
  split.
  - intros nParent Hd2. destruct d as [|d]; [lia|].
    rewrite <- Hstr, (getFromKey_general X Y d) by done.
    destruct (decide _); [by right|by left].
  - destruct (library_lookups X Y k Hk)
      as (x & y & sx & sy & ex & ey & Hlook & _).
    exists x, y, sx, sy, ex, ey. split; [exact Hlook|].
    destruct Hlook as (Hx & Hy & Hsx & Hsy & Hex & Hey).
    unfold junction_node, plain_node.
    rewrite !lookup_total_alt, Hx, Hy, Hsx, Hsy, Hex, Hey.
    cbn [default]. unfold id.
    destruct (decide _).
    + right. eexists _, _, _, _. split; [done|].
      repeat split; apply affine_placed.
    + left. eexists _, _. split; [done|]. split; apply affine_placed.
Qed.

Lemma resolved_geometry_witness :
  address 2 "31" /\ (1 <= 2 <= depth 2)%nat /\
  exists s m g,
    Steinhaus_init 2 default_X default_Y = OK s /\
    lines s !! 2%Z = Some m /\ m !! "31"%string = Some g /\
    g = resolve (pattern s) [3; 1]%Z /\
    exists gx gy,
      g = ([gx], [gy]) /\
      gx !! 2%nat = Some (q (-7) 8) /\ gy !! 1%nat = Some (q (-3) 8).
Proof.
  assert (address 2 "31") as Ha by compute_done.
  assert (1 <= 2 <= depth 2)%nat as Hd by (vm_compute; lia).
  split; [exact Ha|]. split; [exact Hd|].
  destruct (resolved_geometry default_X default_Y 2 "31" 2 Ha Hd)
    as (s & m & g & Hs & Hm & Hg & prefix & k & Hdig & _ & _ & Hres & _ & _
        & x & y & sx & sy & ex & ey & Hlook & Hshape).
  exists s, m, g. split; [exact Hs|]. split; [exact Hm|].
  split; [exact Hg|]. split; [exact Hres|].
  assert (prefix = [3%Z] /\ k = 1%Z) as [-> ->].
  { change (digits "31") with ([3%Z] ++ [1%Z]) in Hdig.
    apply app_inj_tail in Hdig as [<- <-]. done. }
  destruct (Steinhaus_init_spec default_X default_Y 2) as (ls & Hs' & _).
  rewrite Hs' in Hs. injection Hs as <-. cbn [pattern] in *.
  destruct Hlook as (Lx & Ly & _).
  assert (pattern_X (library default_X default_Y) !! 1%Z
          = Some [q (-1) 2; q (-1) 2; q (-3) 4; q (-1) 2; q (-1) 4; q 0 1])
    as Ex by compute_done.
  assert (pattern_Y (library default_X default_Y) !! 1%Z
          = Some [q 0 1; q 1 4; q 1 2; q 3 4; q 1 2; q 1 2])
    as Ey by compute_done.
  rewrite Ex in Lx. rewrite Ey in Ly.
  injection Lx as <-. injection Ly as <-.
  destruct Hshape as [(gx & gy & Eg & Hx & Hy)
                     |(gsx & gex & gsy & gey & Eg & Hsx & _)].
  - exists gx, gy. split; [exact Eg|]. split.
    + rewrite (proj2 Hx 2%nat (q (-3) 4) eq_refl). compute_done.
    + rewrite (proj2 Hy 1%nat (q 1 4) eq_refl). compute_done.
  - exfalso. rewrite Eg in Hres. vm_compute in Hres. discriminate Hres.
Defined.

Lemma strict_prefix_levels P d1 d2 (m1 m2 : gmap string geometry) a :
  level_ok P d1 m1 -> level_ok P d2 m2 -> (d1 < d2)%nat -> a ∈ dom m1 ->
  filter (strict_prefix a) (dom m2) = filter (extends a) (dom m2).
Proof.
  intros H1 H2 Hlt Ha. apply set_eq. intros key.
  rewrite !elem_of_filter. unfold strict_prefix. split; [by intros [[? ?] ?]|].
  intros [He Hkey]. split; [|done]. split; [done|]. intros ->.
  apply (level_ok_elem_of P d1 m1 key H1) in Ha as [Hl1 _].
  apply (level_ok_elem_of P d2 m2 key H2) in Hkey as [Hl2 _]. lia.
Qed.

(** C3 (as the code has it).  For depths [d1 < d2] up to the last level
    built, every address of level [d1] is a strict prefix of exactly four
    addresses of level [d1 + 1], its extensions by one digit 1 to 4, and of
    exactly [4^(d2-d1)] addresses of level [d2]; level [d2] holds
    [4^(d2-1)] addresses below each of the four addresses of level 1, and
    [4^d2] addresses in all. *)
Theorem level_addresses (X Y : array) (nLevel : Z) (d1 d2 : nat) :
  (1 <= d1 < d2)%nat -> (d2 <= depth nLevel)%nat ->
  exists s l1 m1 mnext m2,
    Steinhaus_init nLevel X Y = OK s /\
    lines s !! 1%Z = Some l1 /\
    lines s !! Z.of_nat d1 = Some m1 /\
    lines s !! Z.of_nat (S d1) = Some mnext /\
    lines s !! Z.of_nat d2 = Some m2 /\
    (forall a, a ∈ dom m1 ->
       (forall key, key ∈ dom mnext /\ strict_prefix a key <->
                    exists k, k ∈ [1; 2; 3; 4]%Z /\ key = a +:+ str k) /\
       size (filter (strict_prefix a) (dom mnext)) = 4%nat /\
       size (filter (strict_prefix a) (dom m2)) = (4 ^ (d2 - d1))%nat) /\
    size l1 = 4%nat /\
    (forall r, r ∈ dom l1 ->
       size (filter (extends r) (dom m2)) = (4 ^ (d2 - 1))%nat) /\
    size m2 = (4 ^ d2)%nat.
Proof.
  intros Hd1 Hd2.
  destruct (Steinhaus_init_spec X Y nLevel) as (ls & Hs & Hlev & _).
  destruct (Hlev 1%nat) as (l1 & Hl1 & Hok1); [lia|].
  destruct (Hlev d1) as (m1 & Hm1 & Hokm1); [lia|].
  destruct (Hlev (S d1)) as (mnext & Hmnext & Hoknext); [lia|].
  destruct (Hlev d2) as (m2 & Hm2 & Hok2); [lia|].
  eexists _, l1, m1, mnext, m2. split; [exact Hs|]. cbn [lines].
  split; [exact Hl1|]. split; [exact Hm1|]. split; [exact Hmnext|].
  split; [exact Hm2|]. split; [|split; [|split]].
  - intros a Ha.
    assert (address d1 a) as Haddr
      by by apply (level_ok_elem_of _ d1 m1 a Hokm1).
    split; [|split].
    + intros key. rewrite (level_ok_elem_of _ (S d1) mnext key Hoknext).
      split.
      * intros [Hkey [[t ->]%extends_app _]].
        destruct (address_inv d1 _ Hkey) as (a' & c & E & Ha' & Hc).
        destruct (digit_chars_elem c Hc) as (k & Hk & Hstr & _).
        exists k. split; [done|]. rewrite Hstr.
        assert (chars a = chars a' /\ chars t = [c]) as [Ea Et].
        { apply (f_equal chars) in E. rewrite !chars_app in E.
          apply app_inj_1 in E; [done|].
          destruct Haddr as [Hl _], Ha' as [Hl' _].
          rewrite <- !chars_length. congruence. }
        f_equal. apply chars_inj. by rewrite Et.
      * intros (k & Hk & ->).
        destruct (str_digit k Hk) as (c & Hc & -> & _).
        split; [by apply address_snoc|]. split.
        -- apply extends_app. by eexists.
        -- intros E. apply (f_equal String.length) in E.
           rewrite length_snoc in E. lia.
    + rewrite (strict_prefix_levels _ d1 (S d1) m1 mnext a Hokm1 Hoknext)
        by (done || lia).
      replace (S d1) with (d1 + 1)%nat in Hoknext by lia.
      by rewrite (level_ok_descendants _ d1 1 mnext a Hoknext Haddr).
    + rewrite (strict_prefix_levels _ d1 d2 m1 m2 a Hokm1 Hok2)
        by (done || lia).
      replace d2 with (d1 + (d2 - d1))%nat in Hok2 by lia.
      by rewrite (level_ok_descendants _ d1 (d2 - d1) m2 a Hok2 Haddr).
  - by rewrite (level_ok_size _ 1 l1 Hok1).
  - intros r Hr.
    assert (address 1 r) as Haddr
      by by apply (level_ok_elem_of _ 1 l1 r Hok1).
    replace d2 with (1 + (d2 - 1))%nat in Hok2 by lia.
    by rewrite (level_ok_descendants _ 1 (d2 - 1) m2 r Hok2 Haddr).
  - by apply (level_ok_size _ d2 m2 Hok2).
Qed.

Lemma level_addresses_witness :
  (1 <= 1 < 2)%nat /\ (2 <= depth 2)%nat /\
  exists s m2,
    Steinhaus_init 2 default_X default_Y = OK s /\
    lines s !! 2%Z = Some m2 /\ size m2 = 16%nat.
Proof.
  assert (1 <= 1 < 2)%nat as H1 by lia.
  assert (2 <= depth 2)%nat as H2 by (vm_compute; lia).
  split; [exact H1|]. split; [exact H2|].
  destruct (level_addresses default_X default_Y 2 1 2 H1 H2)
    as (s & l1 & m1 & mnext & m2 & Hs & _ & _ & _ & Hm2 & _ & _ & _ & Hsize).
  exists s, m2. split; [exact Hs|]. split; [exact Hm2|exact Hsize].
Defined.

(** C3, counterexample: with the default seed and depth 2, level 2 holds
    16 addresses, all reached from level 1, and not [4^(2-1) = 4]. *)
Lemma level_2_has_16_addresses :
  exists s m2,
    Steinhaus_init 2 default_X default_Y = OK s /\
    lines s !! 2%Z = Some m2 /\
    size m2 = 16%nat /\ size m2 <> (4 ^ (2 - 1))%nat /\
    forall key, key ∈ dom m2 ->
      exists r l1, lines s !! 1%Z = Some l1 /\ r ∈ dom l1 /\ extends r key.
Proof.
  destruct (Steinhaus_init_spec default_X default_Y 2) as (ls & Hs & Hlev & _).
  destruct (Hlev 1%nat) as (l1 & Hl1 & Hok1); [vm_compute; lia|].
  destruct (Hlev 2%nat) as (m2 & Hm2 & Hok2); [vm_compute; lia|].
  eexists _, m2. split; [exact Hs|]. cbn [lines]. split; [exact Hm2|].
  rewrite (level_ok_size _ 2 m2 Hok2). split; [done|]. split; [simpl; lia|].
  intros key Hkey. apply (level_ok_elem_of _ 2 m2 key Hok2) in Hkey.
  destruct (address_inv 1 key Hkey) as (r & c & -> & Hr & _).
  exists r, l1. split; [exact Hl1|]. split.
  - by apply (level_ok_elem_of _ 1 l1 r Hok1).
  - apply extends_app. by eexists.
Qed.

(** ** Validation *)

(** C4 (as the code has it).  [Pattern.__init__] validates nothing: for
    every pair of X and Y sequences, also with fewer than three points or
    with unequal lengths, it returns a pattern library and raises nothing.
    Only the script compares the two lengths: it raises a generic
    [Exception] before any pattern is constructed when they differ, and
    builds the curve whenever they agree, however few the points. *)
Theorem Pattern_init_total (X Y : array) :
  (exists P, Pattern_init X Y = OK P) /\
  (forall e, Pattern_init X Y <> Raise e) /\
  forall nLevel,
    (length X <> length Y ->
     script (Some X) (Some Y) nLevel
     = Raise (Exception
                "X and Y cordinates should have the same number of elements"))
    /\
    (length X = length Y ->
     exists s, script (Some X) (Some Y) nLevel = OK s).
Proof.
  split; [|split].
  - eexists. apply Pattern_init_OK.
  - intros e. by rewrite Pattern_init_OK.
  - intros nLevel. unfold script, none_or_empty. split.
    + intros Hne.
      destruct (bool_decide (length X = 0%nat)
                && bool_decide (length Y = 0%nat)) eqn:E.
      * apply andb_prop in E
          as [E1%bool_decide_eq_true E2%bool_decide_eq_true].
        congruence.
      * cbn [len]. rewrite !bind_OK. by rewrite bool_decide_eq_true_2.
    + intros Heq.
      destruct (bool_decide (length X = 0%nat)
                && bool_decide (length Y = 0%nat)); cbn [len];
        rewrite !bind_OK, bool_decide_eq_false_2 by (simpl; lia);
        unfold main.
      * destruct (Steinhaus_init_spec default_X default_Y nLevel)
          as (ls & -> & _). by eexists.
      * destruct (Steinhaus_init_spec X Y nLevel) as (ls & -> & _).
        by eexists.
Qed.

Lemma Pattern_init_total_witness :
  length default_X <> length [q 0 1; q 1 4] /\
  length [q 1 1] = length [q 0 1] /\
  succeeds (Pattern_init default_X [q 0 1; q 1 4]) = true /\
  succeeds (script (Some default_X) (Some [q 0 1; q 1 4]) 6) = false /\
  succeeds (script (Some [q 1 1]) (Some [q 0 1]) 6) = true.
Proof.
  assert (length default_X <> length [q 0 1; q 1 4]) as Hne by (simpl; lia).
  assert (length [q 1 1] = length [q 0 1]) as Heq by reflexivity.
  destruct (Pattern_init_total default_X [q 0 1; q 1 4]) as ([P HP] & _ & Hs).
  destruct (Pattern_init_total [q 1 1] [q 0 1]) as (_ & _ & Hs').
  split; [exact Hne|]. split; [exact Heq|]. split; [|split].
  - by rewrite HP.
  - by rewrite (proj1 (Hs 6%Z) Hne).
  - destruct (proj2 (Hs' 6%Z) Heq) as [s ->]. done.
Defined.

(** C4, counterexample: a root pattern with three X and two Y coordinates,
    and one with no point at all, are accepted by [Pattern.__init__]. *)
Lemma Pattern_init_accepts_invalid :
  (exists P, Pattern_init default_X [q 0 1; q 1 4] = OK P) /\
  (exists P, Pattern_init [] [] = OK P) /\
  ~ (exists e, Pattern_init default_X [q 0 1; q 1 4] = Raise e) /\
  ~ (exists e, Pattern_init [] [] = Raise e).
Proof.
  split; [|split; [|split]].
  - eexists. apply Pattern_init_OK.
  - eexists. apply Pattern_init_OK.
  - intros [e He]. by rewrite Pattern_init_OK in He.
  - intros [e He]. by rewrite Pattern_init_OK in He.
Qed.

(** C5 (as the code has it).  A requested depth below 1 is not rejected:
    the constructor raises nothing and builds level 1 alone, with its four
    root nodes, exactly as for depth 1. *)
Theorem Steinhaus_init_low_level (X Y : array) (nLevel : Z) :
  (nLevel < 1)%Z ->
  exists s l1,
    Steinhaus_init nLevel X Y = OK s /\
    level s = nLevel /\
    lines s = {[1%Z := l1]} /\
    size l1 = 4%nat /\
    (forall e, Steinhaus_init nLevel X Y <> Raise e) /\
    exists s1, Steinhaus_init 1 X Y = OK s1 /\ lines s1 = lines s.
Proof.
  intros Hlow.
  assert (forall n, (n <= 1)%Z -> exists ls l1,
            Steinhaus_init n X Y = OK (mkSteinhaus n (library X Y) ls) /\
            ls = {[1%Z := l1]} /\ level_ok (library X Y) 1 l1) as Hone.
  { intros n Hn. destruct (Steinhaus_init_spec X Y n) as (ls & Hs & Hlev & Hno).
    replace (depth n) with 1%nat in * by (unfold depth; lia).
    destruct (Hlev 1%nat) as (l1 & Hl1 & Hok); [lia|].
    exists ls, l1. split; [done|]. split; [|done].
    apply map_eq. intros z. destruct (decide (z = 1%Z)) as [->|Hz].
    - by rewrite lookup_singleton_eq.
    - rewrite lookup_singleton_ne by done. apply Hno. lia. }
  destruct (Hone nLevel) as (ls & l1 & Hs & -> & Hok); [lia|].
  destruct (Hone 1%Z) as (ls' & l1' & Hs' & -> & Hok'); [lia|].
  eexists _, l1. split; [exact Hs|]. cbn [level lines].
  split; [done|]. split; [done|].
  split; [by rewrite (level_ok_size _ 1 l1 Hok)|].
  split; [intros e; by rewrite Hs|].
  eexists. split; [exact Hs'|]. cbn [lines]. f_equal.
  apply map_eq. intros key. by rewrite Hok, Hok'.
Qed.

Lemma Steinhaus_init_low_level_witness :
  (0 < 1)%Z /\
  exists s l1,
    Steinhaus_init 0 default_X default_Y = OK s /\
    lines s = {[1%Z := l1]} /\ size l1 = 4%nat.
Proof.
  assert (0 < 1)%Z as H by lia.
  split; [exact H|].
  destruct (Steinhaus_init_low_level default_X default_Y 0 H)
    as (s & l1 & Hs & _ & Hl & Hsize & _).
  exists s, l1. split; [exact Hs|]. split; [exact Hl|exact Hsize].
Defined.

(** C5, counterexample: depths 0 and -3 with the default seed raise
    nothing and produce level 1. *)
Lemma Steinhaus_init_accepts_depth_0 :
  (exists s, Steinhaus_init 0 default_X default_Y = OK s /\
             is_Some (lines s !! 1%Z)) /\
  (exists s, Steinhaus_init (-3) default_X default_Y = OK s /\
             is_Some (lines s !! 1%Z)) /\
  ~ (exists e, Steinhaus_init 0 default_X default_Y = Raise e).
Proof.
  assert (forall n, exists s, Steinhaus_init n default_X default_Y = OK s /\
                              is_Some (lines s !! 1%Z)) as H.
  { intros n.
    destruct (Steinhaus_init_spec default_X default_Y n)
      as (ls & Hs & Hlev & _).
    destruct (Hlev 1%nat) as (l1 & Hl1 & _); [unfold depth; lia|].
    eexists. split; [exact Hs|]. by exists l1. }
  split; [apply H|]. split; [apply H|].
  intros [e He]. destruct (H 0%Z) as (s & Hs & _). by rewrite Hs in He.
Qed.

(** C9, counterexample: on the degenerate line [0 x + 0 y + 1 = 0] and the
    empty point sequence the exception raised is Python's
    [ZeroDivisionError]; no [InvalidLineError] exists in the program. *)
Lemma symmetrize_degenerate_is_ZeroDivisionError :
  exists e,
    symmetrize 0 0 1 [] [] = Raise e /\
    exception_name e = "ZeroDivisionError"%string /\
    exception_name e <> "InvalidLineError"%string.
Proof. exists ZeroDivisionError. by split; [compute_done|]. Qed.

(** * Further properties of the program *)

(** ** Reflection *)

(** [zip] stops at the shorter of [X] and [Y]: [symmetrize] returns two
    lists of that common length and drops the unmatched coordinates without
    raising. *)
Theorem symmetrize_truncates (a b c : Qc) (X Y : array) :
  a ^ 2 + b ^ 2 <> 0 ->
  exists Xs Ys,
    symmetrize a b c X Y = OK (Xs, Ys) /\
    length Xs = (length X `min` length Y)%nat /\
    length Ys = (length X `min` length Y)%nat /\
    symmetrize a b c (take (length Y) X) (take (length X) Y) = OK (Xs, Ys).
Proof.
  intros Hd. eexists _, _. split; [by apply symmetrize_OK|].
  unfold reflect_points. rewrite !length_fmap, length_zip.
  split; [done|]. split; [done|].
  rewrite symmetrize_OK by done. unfold reflect_points.
  by rewrite zip_with_take_both.
Qed.

Lemma symmetrize_truncates_witness :
  1 ^ 2 + 1 ^ 2 <> 0 /\
  exists Xs Ys,
    symmetrize 1 1 0 default_X [q 0 1; q 1 4] = OK (Xs, Ys) /\
    length Xs = 2%nat /\ length Ys = 2%nat.
Proof.
  split; [compute_done|].
  destruct (symmetrize_truncates 1 1 0 default_X [q 0 1; q 1 4])
    as (Xs & Ys & H & HX & HY & _); [compute_done|].
  exists Xs, Ys. split; [exact H|]. split; [exact HX|exact HY].
Defined.

Lemma reflect_point_fixed a b c p :
  a ^ 2 + b ^ 2 <> 0 ->
  reflect_point a b c p = p <-> a * p.1 + b * p.2 + c = 0.
Proof.
  intros Hd. destruct p as [x y]. unfold reflect_point.
  cbn [Qcpower fst snd] in *.
  assert (a * a + b * b <> 0) as Hd'
    by (intros E; apply Hd; rewrite <- E; ring).
  split.
  - intros [= H1 H2].
    set (T := (a * x + b * y + c) / (a * (a * 1) + b * (b * 1))) in *.
    assert (T * a = 0) as Ha.
    { replace (T * a) with ((x - (2 * (x - T * a) - x)) / 2)
        by (field; compute_done).
      rewrite H1. field. compute_done. }
    assert (T * b = 0) as Hb.
    { replace (T * b) with ((y - (2 * (y - T * b) - y)) / 2)
        by (field; compute_done).
      rewrite H2. field. compute_done. }
    replace (a * x + b * y + c) with (a * (T * a) + b * (T * b))
      by (unfold T; field; assumption).
    rewrite Ha, Hb. ring.
  - intros ->. f_equal; field; assumption.
Qed.

(** A point sequence comes back unchanged from [symmetrize] exactly when
    all its points lie on the line [a x + b y + c = 0]. *)
Theorem symmetrize_fixed_points (a b c : Qc) (ps : list (Qc * Qc)) :
  a ^ 2 + b ^ 2 <> 0 ->
  symmetrize a b c ps.*1 ps.*2 = OK (ps.*1, ps.*2)
  <-> Forall (fun p => a * p.1 + b * p.2 + c = 0) ps.
Proof.
  intros Hd. rewrite symmetrize_OK, zip_fst_snd by done.
  unfold reflect_points. split.
  - intros [= H1 H2]. induction ps as [|p ps IH]; [constructor|].
    cbn [fmap list_fmap] in H1, H2.
    injection H1 as H1 H1'. injection H2 as H2 H2'.
    constructor; [|by apply IH].
    apply (reflect_point_fixed a b c p Hd).
    destruct p as [x y]. unfold reflect_point.
    cbn [Qcpower fst snd] in *. by f_equal.
  - intros Hps. assert (reflect_point a b c <$> ps = ps) as ->; [|done].
    induction Hps as [|p ps Hp _ IH]; [done|].
    cbn [fmap list_fmap]. f_equal; [|done].
    by apply reflect_point_fixed.
Qed.

Lemma symmetrize_fixed_points_witness :
  1 ^ 2 + (-1) ^ 2 <> 0 /\
  symmetrize 1 (-1) 0 [q 1 2; q (-3) 1] [q 1 2; q (-3) 1]
  = OK ([q 1 2; q (-3) 1], [q 1 2; q (-3) 1]).
Proof.
  split; [compute_done|].
  apply (symmetrize_fixed_points 1 (-1) 0
           [(q 1 2, q 1 2); (q (-3) 1, q (-3) 1)]); [compute_done|].
  repeat constructor; compute_done.
Defined.

Lemma reflect_point_isometry a b c p r :
  a ^ 2 + b ^ 2 <> 0 ->
  ((reflect_point a b c p).1 - (reflect_point a b c r).1) ^ 2
  + ((reflect_point a b c p).2 - (reflect_point a b c r).2) ^ 2
  = (p.1 - r.1) ^ 2 + (p.2 - r.2) ^ 2.
Proof.
  intros Hd. destruct p as [x y], r as [u v]. unfold reflect_point.
  cbn [Qcpower fst snd] in *.
  assert (a * a + b * b <> 0)
    by (intros E; apply Hd; rewrite <- E; ring).
  field. assumption.
Qed.

(** [symmetrize] keeps the distance between any two points of the
    sequence (stated on squared distances). *)
Theorem symmetrize_isometry (a b c : Qc) (X Y : array) (i j : nat)
    (xi yi xj yj : Qc) :
  a ^ 2 + b ^ 2 <> 0 ->
  X !! i = Some xi -> Y !! i = Some yi ->
  X !! j = Some xj -> Y !! j = Some yj ->
  exists Xs Ys xi' yi' xj' yj',
    symmetrize a b c X Y = OK (Xs, Ys) /\
    (Xs !! i = Some xi' /\ Ys !! i = Some yi') /\
    (Xs !! j = Some xj' /\ Ys !! j = Some yj') /\
    (xi' - xj') ^ 2 + (yi' - yj') ^ 2 = (xi - xj) ^ 2 + (yi - yj) ^ 2.
Proof.
  intros Hd Hxi Hyi Hxj Hyj.
  assert (zip X Y !! i = Some (xi, yi)) as Hi
    by (apply lookup_zip_with_Some; eauto 6).
  assert (zip X Y !! j = Some (xj, yj)) as Hj
    by (apply lookup_zip_with_Some; eauto 6).
  eexists _, _, _, _, _, _. split; [by apply symmetrize_OK|].
  unfold reflect_points. rewrite !list_lookup_fmap, Hi, Hj.
  split; [done|]. split; [done|].
  apply (reflect_point_isometry a b c (xi, yi) (xj, yj) Hd).
Qed.

Lemma symmetrize_isometry_witness :
  (-1) ^ 2 + (-1) ^ 2 <> 0 /\
  default_X !! 0%nat = Some (q (-1) 2) /\ default_Y !! 0%nat = Some (q 0 1) /\
  default_X !! 2%nat = Some (q (-3) 4) /\ default_Y !! 2%nat = Some (q 1 2) /\
  exists Xs Ys,
    symmetrize (-1) (-1) 0 default_X default_Y = OK (Xs, Ys).
Proof.
  assert ((-1) ^ 2 + (-1) ^ 2 <> 0) as Hd by compute_done.
  split; [exact Hd|]. repeat (split; [reflexivity|]).
  destruct (symmetrize_isometry (-1) (-1) 0 default_X default_Y 0 2
              (q (-1) 2) (q 0 1) (q (-3) 4) (q 1 2) Hd
              eq_refl eq_refl eq_refl eq_refl)
    as (Xs & Ys & _ & _ & _ & _ & H & _).
  by exists Xs, Ys.
Defined.

(** ** The four orientations, continued *)

Lemma symmetries_X_lookup_other (DX : gmap Z array) x k :
  k ∉ [2; 3; 4]%Z -> symmetries_X DX x !! k = DX !! k.
Proof.
  intros Hk. unfold symmetries_X.
  rewrite !lookup_insert_ne; [done|intros <-; apply Hk; compute_done..].
Qed.

Lemma symmetries_Y_lookup_other (DY : gmap Z array) y k :
  k ∉ [2; 3; 4]%Z -> symmetries_Y DY y !! k = DY !! k.
Proof.
  intros Hk. unfold symmetries_Y.
  rewrite !lookup_insert_ne; [done|intros <-; apply Hk; compute_done..].
Qed.

Lemma symmetries_X_lookup_all (DX : gmap Z array) x k :
  symmetries_X DX x !! k
  = if decide (k = 4%Z) then Some (flipud (neg x))
    else if decide (k = 3%Z) then Some (flipud x)
    else if decide (k = 2%Z) then Some (flipud (neg x))
    else DX !! k.
Proof.
  unfold symmetries_X. rewrite !lookup_insert.
  repeat case_decide; congruence.
Qed.

Lemma symmetries_Y_lookup_all (DY : gmap Z array) y k :
  symmetries_Y DY y !! k
  = if decide (k = 4%Z) then Some (flipud (neg y))
    else if decide (k = 3%Z) then Some (flipud (neg y))
    else if decide (k = 2%Z) then Some (flipud y)
    else DY !! k.
Proof.
  unfold symmetries_Y. rewrite !lookup_insert.
  repeat case_decide; congruence.
Qed.

(** [generateSymmetries] needs entry 1 in both dictionaries: it raises
    [KeyError] exactly when one of them lacks it, and raises nothing
    else. *)
Theorem generateSymmetries_KeyError (DX DY : gmap Z array) :
  (generateSymmetries DX DY = Raise KeyError
   <-> DX !! 1%Z = None \/ DY !! 1%Z = None) /\
  (forall e, generateSymmetries DX DY = Raise e -> e = KeyError).
Proof.
  destruct (DX !! 1%Z) as [x|] eqn:Hx, (DY !! 1%Z) as [y|] eqn:Hy.
  - rewrite (generateSymmetries_OK DX DY x y Hx Hy).
    split; [|done]. split; [done|]. by intros [?|?].
  - unfold generateSymmetries, getitem. rewrite Hx. cbn.
    rewrite Hy. cbn. split; [|by intros e [= <-]]. split; [by right|done].
  - unfold generateSymmetries, getitem. rewrite Hx. cbn.
    split; [|by intros e [= <-]]. split; [by left|done].
  - unfold generateSymmetries, getitem. rewrite Hx. cbn.
    split; [|by intros e [= <-]]. split; [by left|done].
Qed.

(** [generateSymmetries] only writes entries 2, 3 and 4, and running it a
    second time on its own result changes nothing. *)
Theorem generateSymmetries_idempotent (DX DY DX' DY' : gmap Z array) :
  generateSymmetries DX DY = OK (DX', DY') ->
  generateSymmetries DX' DY' = OK (DX', DY') /\
  forall k, k ∉ [2; 3; 4]%Z -> DX' !! k = DX !! k /\ DY' !! k = DY !! k.
Proof.
  intros H.
  destruct (DX !! 1%Z) as [x|] eqn:Hx; cycle 1.
  { unfold generateSymmetries, getitem in H. by rewrite Hx in H. }
  destruct (DY !! 1%Z) as [y|] eqn:Hy; cycle 1.
  { unfold generateSymmetries, getitem in H. rewrite Hx in H. cbn in H.
    by rewrite Hy in H. }
  rewrite (generateSymmetries_OK DX DY x y Hx Hy) in H.
  injection H as <- <-. split.
  - rewrite (generateSymmetries_OK _ _ x y).
    + do 2 f_equal; apply map_eq; intros k.
      * rewrite !symmetries_X_lookup_all. by repeat case_decide.
      * rewrite !symmetries_Y_lookup_all. by repeat case_decide.
    + by rewrite symmetries_X_lookup_other by compute_done.
    + by rewrite symmetries_Y_lookup_other by compute_done.
  - intros k Hk.
    by rewrite symmetries_X_lookup_other, symmetries_Y_lookup_other.
Qed.

Lemma generateSymmetries_idempotent_witness :
  exists DX' DY',
    generateSymmetries {[1%Z := default_X]} {[1%Z := default_Y]}
    = OK (DX', DY') /\
    generateSymmetries DX' DY' = OK (DX', DY').
Proof.
  eexists _, _. split.
  - apply (generateSymmetries_OK _ _ default_X default_Y); reflexivity.
  - apply (generateSymmetries_idempotent
             {[1%Z := default_X]} {[1%Z := default_Y]}).
    apply (generateSymmetries_OK _ _ default_X default_Y); reflexivity.
Defined.

Lemma neg_involutive (x : array) : neg (neg x) = x.
Proof.
  unfold neg. rewrite <- list_fmap_compose.
  rewrite <- (list_fmap_id x) at 2. apply list_fmap_ext.
  intros _ v _. simpl. apply Qcopp_involutive.
Qed.

Lemma flipud_involutive (x : array) : flipud (flipud x) = x.
Proof. apply reverse_involutive. Qed.

Lemma neg_flipud (x : array) : neg (flipud x) = flipud (neg x).
Proof. unfold neg, flipud. apply fmap_reverse. Qed.

(** Each of the orientations 2, 3 and 4 is its own inverse: seeding
    [generateSymmetries] with orientation [k] of a seed gives the seed back
    as orientation [k]. *)
Theorem generateSymmetries_involution (X Y xk yk : array)
    (DX' DY' : gmap Z array) (k : Z) :
  k ∈ [2; 3; 4]%Z ->
  generateSymmetries {[1%Z := X]} {[1%Z := Y]} = OK (DX', DY') ->
  DX' !! k = Some xk -> DY' !! k = Some yk ->
  exists DX'' DY'',
    generateSymmetries {[1%Z := xk]} {[1%Z := yk]} = OK (DX'', DY'') /\
    DX'' !! k = Some X /\ DY'' !! k = Some Y.
Proof.
  intros Hk H Hxk Hyk.
  rewrite (generateSymmetries_OK _ _ X Y) in H by apply lookup_singleton_eq.
  injection H as <- <-.
  rewrite symmetries_X_lookup_all in Hxk.
  rewrite symmetries_Y_lookup_all in Hyk.
  eexists _, _. split.
  { apply (generateSymmetries_OK _ _ xk yk); apply lookup_singleton_eq. }
  rewrite symmetries_X_lookup_all, symmetries_Y_lookup_all.
  assert (k = 2 \/ k = 3 \/ k = 4)%Z as [-> | [-> | ->]].
  { repeat (apply elem_of_cons in Hk as [Hk|Hk]; [auto|]).
    by apply elem_of_nil in Hk. }
  all: simpl in *; injection Hxk as <-; injection Hyk as <-.
  all: by rewrite ?neg_flipud, ?flipud_involutive, ?neg_involutive.
Qed.

Lemma generateSymmetries_involution_witness :
  (3 ∈ [2; 3; 4])%Z /\
  exists DX'' DY'',
    generateSymmetries {[1%Z := flipud default_X]}
      {[1%Z := flipud (neg default_Y)]} = OK (DX'', DY'') /\
    DX'' !! 3%Z = Some default_X /\ DY'' !! 3%Z = Some default_Y.
Proof.
  assert (3 ∈ [2; 3; 4])%Z as Hk by compute_done.
  split; [exact Hk|].
  apply (generateSymmetries_involution default_X default_Y _ _
           (symmetries_X {[1%Z := default_X]} default_X)
           (symmetries_Y {[1%Z := default_Y]} default_Y) 3 Hk).
  - apply (generateSymmetries_OK _ _ default_X default_Y); reflexivity.
  - reflexivity.
  - reflexivity.
Defined.

(** ** Offsets *)

Lemma Qc_eq_Qeq (x y : Qc) : x = y -> (this x == this y)%Q.
Proof. by intros ->. Qed.

(** Linear arithmetic on [Qc], through [Q]. *)
Ltac qc_lra :=
  repeat match goal with
  | H : @eq Qc _ _ |- _ => apply Qc_eq_Qeq in H
  | |- @eq Qc _ _ => apply Qc_is_canon
  end;
  unfold Qcle, Qclt, Qcminus, Qcplus, Qcopp, Qcmult in *;
  cbn [this Q2Qc] in *;
  repeat match goal with
  | H : context [Qred ?q] |- _ => rewrite (Qred_correct q) in H
  | |- context [Qred ?q] => rewrite (Qred_correct q)
  end;
  lra.

Lemma pow2_neq_0 (n : nat) : 2 ^ n <> 0.
Proof.
  induction n as [|n IH]; [compute_done|].
  cbn [Qcpower]. intros [H|H]%Qcmult_integral; [|done].
  revert H. compute_done.
Qed.

Lemma half_pow_S (i : nat) : 1 / 2 ^ i = 2 * (1 / 2 ^ S i).
Proof.
  cbn [Qcpower]. field. split; [apply pow2_neq_0|compute_done].
Qed.

Lemma half_pow_pos (i : nat) : 0 < 1 / 2 ^ i.
Proof.
  induction i as [|i IH]; [compute_done|].
  rewrite half_pow_S in IH. revert IH.
  generalize (1 / 2 ^ S i). intros h IH. qc_lra.
Qed.

Lemma contribution_cases i d :
  ((contribution i d).1 = 1 / 2 ^ S i \/ (contribution i d).1 = - (1 / 2 ^ S i))
  /\
  ((contribution i d).2 = 1 / 2 ^ S i \/ (contribution i d).2 = - (1 / 2 ^ S i)).
Proof.
  unfold contribution. replace (i + 1)%nat with (S i) by lia. cbn [fst snd].
  split; [destruct (Z.odd d)|destruct (decide _)]; auto.
Qed.

Lemma offset_from_bound ds i :
  let B := 1 / 2 ^ i - 1 / 2 ^ (i + length ds) in
  (- B <= (offset_from i ds).1 /\ (offset_from i ds).1 <= B) /\
  (- B <= (offset_from i ds).2 /\ (offset_from i ds).2 <= B).
Proof.
  revert i. induction ds as [|d ds IH]; intros i; cbv zeta.
  - cbn [offset_from length fst snd]. rewrite Nat.add_0_r.
    generalize (1 / 2 ^ i). intros h. repeat split; qc_lra.
  - cbn [offset_from length fst snd].
    specialize (IH (S i)). cbv zeta in IH.
    replace (i + S (length ds))%nat with (S i + length ds)%nat by lia.
    pose proof (half_pow_S i) as Hh.
    pose proof (half_pow_pos (S i)) as Hp.
    destruct (contribution_cases i d) as [[Hx|Hx] [Hy|Hy]];
      rewrite Hx, Hy;
      revert IH Hh Hp;
      generalize (1 / 2 ^ i) (1 / 2 ^ S i) (1 / 2 ^ (S i + length ds))
        (offset_from (S i) ds).1 (offset_from (S i) ds).2;
      intros h h' e r1 r2 [[? ?] [? ?]] Hh Hp; repeat split; qc_lra.
Qed.


(** [getOffset] on any string of decimal digits. *)
Lemma getOffset_loop_decimal cs i acc :
  Forall (fun c => is_Some (Ascii.is_nat c)) cs ->
  for_each getOffset_step cs (i, acc)
  = OK ((i + length cs)%nat,
        (acc.1 + (offset_from i (digit <$> cs)).1,
         acc.2 + (offset_from i (digit <$> cs)).2)).
Proof.
  intros Hcs. revert i acc.
  induction Hcs as [|c cs [n Hc] _ IH]; intros i [ox oy]; simpl.
  - rewrite Nat.add_0_r. do 2 f_equal. f_equal; ring.
  - unfold int, digit. rewrite Hc, bind_OK. cbv zeta. rewrite bind_OK, IH.
    replace (Z.of_nat i + 1)%Z with (Z.of_nat (i + 1)) by lia.
    rewrite pow2_nat. cbn [fst snd].
    replace (i + S (length cs))%nat with (S i + length cs)%nat by lia.
    unfold contribution. cbn [fst snd].
    generalize (1 / 2 ^ (i + 1)%nat). intros h.
    rewrite Zmod_odd. destruct (Z.odd (Z.of_nat n));
      repeat case_decide; try done;
      by rewrite <- !Qcplus_assoc.
Qed.

Lemma getOffset_loop_raises cs st :
  ~ Forall (fun c => is_Some (Ascii.is_nat c)) cs ->
  for_each getOffset_step cs st = Raise ValueError.
Proof.
  revert st. induction cs as [|c cs IH]; intros [i [ox oy]] Hcs.
  - destruct Hcs. constructor.
  - cbn [for_each]. destruct (Ascii.is_nat c) as [n|] eqn:Hc.
    + assert (exists st', getOffset_step (i, (ox, oy)) c = OK st')
        as [st' ->].
      { unfold getOffset_step, int. rewrite Hc. by eexists. }
      rewrite bind_OK. apply IH.
      intros H. apply Hcs. constructor; [by exists n|done].
    + assert (getOffset_step (i, (ox, oy)) c = Raise ValueError) as ->
        by (unfold getOffset_step, int; by rewrite Hc).
      reflexivity.
Qed.

(** On a key of at most 1023 characters (so that every [2**(i+1)] of the
    loop converts to a double), [getOffset] accepts exactly the strings of
    decimal digits: on any other string [int] raises [ValueError], and
    nothing else is raised. *)
Theorem getOffset_ValueError (key : string) :
  (String.length key <= 1023)%nat ->
  (getOffset key = Raise ValueError
   <-> exists c, c ∈ chars key /\ Ascii.is_nat c = None) /\
  ((exists off, getOffset key = OK off)
   <-> Forall (fun c => is_Some (Ascii.is_nat c)) (chars key)) /\
  (forall e, getOffset key = Raise e -> e = ValueError).
Proof.
  intros _. unfold getOffset.
  destruct (decide (Forall (fun c => is_Some (Ascii.is_nat c)) (chars key)))
    as [H|H].
  - rewrite getOffset_loop_decimal, bind_OK by done.
    split; [|split; [|done]].
    + split; [done|]. intros (c & Hc & Hn).
      rewrite Forall_forall in H. apply H in Hc as [? ?]. congruence.
    + split; [done|]. by eexists.
  - rewrite getOffset_loop_raises by done.
    split; [|split; [|by intros e [= <-]]].
    + split; [|done]. intros _.
      apply not_Forall_Exists in H; [|apply _].
      apply Exists_exists in H as (c & Hc & Hn). exists c.
      split; [done|]. by apply eq_None_not_Some.
    + split; [by intros [? ?]|done].
Qed.

Lemma getOffset_ValueError_witness :
  (String.length "1a3" <= 1023)%nat /\
  getOffset "1a3" = Raise ValueError /\
  exists off, getOffset "4102" = OK off.
Proof.
  assert (String.length "1a3" <= 1023)%nat as H1 by (simpl; lia).
  assert (String.length "4102" <= 1023)%nat as H2 by (simpl; lia).
  split; [exact H1|]. split.
  - apply (proj1 (getOffset_ValueError "1a3" H1)).
    exists "a"%char. split; [|reflexivity].
    apply list_elem_of_further, list_elem_of_here.
  - apply (proj1 (proj2 (getOffset_ValueError "4102" H2))).
    repeat constructor; by eexists.
Defined.





Lemma contribution_inj i d d' :
  d ∈ [1; 2; 3; 4]%Z -> d' ∈ [1; 2; 3; 4]%Z ->
  (contribution i d).1 = (contribution i d').1 ->
  (contribution i d).2 = (contribution i d').2 ->
  d = d'.
Proof.
  intros Hd Hd'. unfold contribution. cbn [fst snd].
  pose proof (half_pow_pos (i + 1)) as Hp. revert Hp.
  generalize (1 / 2 ^ (i + 1)%nat). intros h Hp.
  apply elem_of_ids in Hd as [-> | [-> | [-> | ->]]];
    apply elem_of_ids in Hd' as [-> | [-> | [-> | ->]]];
    cbn [Z.odd]; repeat case_decide; try lia; try done;
    intros H1 H2; exfalso; qc_lra.
Qed.

Lemma offset_from_inj ds1 ds2 i :
  length ds1 = length ds2 ->
  Forall (fun d => d ∈ [1; 2; 3; 4]%Z) ds1 ->
  Forall (fun d => d ∈ [1; 2; 3; 4]%Z) ds2 ->
  offset_from i ds1 = offset_from i ds2 -> ds1 = ds2.
Proof.
  revert ds2 i. induction ds1 as [|d1 r1 IH]; intros [|d2 r2] i Hlen H1 H2;
    try done.
  cbn [offset_from]. intros Heq.
  pose proof (f_equal fst Heq) as Hx. pose proof (f_equal snd Heq) as Hy.
  cbn [fst snd] in Hx, Hy. clear Heq.
  apply Forall_cons in H1 as [Hd1 Hr1]. apply Forall_cons in H2 as [Hd2 Hr2].
  injection Hlen as Hlen.
  pose proof (offset_from_bound r1 (S i)) as B1.
  pose proof (offset_from_bound r2 (S i)) as B2.
  cbv zeta in B1, B2. rewrite <- Hlen in B2.
  pose proof (half_pow_pos (S i + length r1)) as He.
  assert ((contribution i d1).1 = (contribution i d2).1 /\
          (contribution i d1).2 = (contribution i d2).2 /\
          (offset_from (S i) r1).1 = (offset_from (S i) r2).1 /\
          (offset_from (S i) r1).2 = (offset_from (S i) r2).2)
    as (Hc1 & Hc2 & Hr1' & Hr2').
  { destruct (contribution_cases i d1) as [[Hx1|Hx1] [Hy1|Hy1]],
      (contribution_cases i d2) as [[Hx2|Hx2] [Hy2|Hy2]];
      rewrite Hx1, Hx2, Hy1, Hy2 in *;
      revert B1 B2 He Hx Hy;
      generalize (1 / 2 ^ S i) (1 / 2 ^ (S i + length r1))
        (offset_from (S i) r1).1 (offset_from (S i) r1).2
        (offset_from (S i) r2).1 (offset_from (S i) r2).2;
      intros h e a1 a2 b1 b2 [[? ?] [? ?]] [[? ?] [? ?]] He Hx Hy;
      repeat split; qc_lra. }
  f_equal.
  - by apply (contribution_inj i).
  - apply (IH r2 (S i)); try done.
    destruct (offset_from (S i) r1), (offset_from (S i) r2).
    simpl in *. congruence.
Qed.

Lemma digits_inj d key1 key2 :
  address d key1 -> address d key2 -> digits key1 = digits key2 ->
  key1 = key2.
Proof.
  intros [_ H1] [_ H2] E. apply chars_inj. unfold digits in E.
  revert E H2. generalize (chars key2). intros cs2.
  induction H1 as [|c1 cs1 Hc1 _ IH] in cs2 |- *; intros E H2;
    destruct H2 as [|c2 cs2 Hc2 H2]; try done.
  cbn [fmap list_fmap] in E. injection E as Ec E.
  f_equal; [|by apply IH].
  destruct (digit_chars_elem c1 Hc1) as (k1 & _ & Hs1 & _ & Hk1).
  destruct (digit_chars_elem c2 Hc2) as (k2 & _ & Hs2 & _ & Hk2).
  assert (String c1 EmptyString = String c2 EmptyString) as [=]; [|done].
  rewrite <- Hs1, <- Hs2. congruence.
Qed.

Lemma digits_address d key :
  address d key -> Forall (fun k => k ∈ [1; 2; 3; 4]%Z) (digits key).
Proof.
  intros [_ H]. unfold digits. apply Forall_fmap.
  eapply Forall_impl; [exact H|]. intros c Hc. simpl.
  by destruct (digit_chars_elem c Hc) as (k & Hk & _ & _ & ->).
Qed.

(** Two addresses of the same length, of at most 53 digits, with the same
    offset are the same address: [getOffset] places distinct prefixes at
    distinct centres.  Within 53 digits every partial sum of the loop is a
    multiple of [1/2^53] below 1 in absolute value, which a double holds
    exactly; beyond, the doubles of the source round and the property is
    lost. *)
Theorem getOffset_injective (d : nat) (key1 key2 : string) (off : Qc * Qc) :
  (d <= 53)%nat ->
  address d key1 -> address d key2 ->
  getOffset key1 = OK off -> getOffset key2 = OK off -> key1 = key2.
Proof.
  intros _ Ha1 Ha2 H1 H2.
  rewrite (getOffset_spec key1 d Ha1) in H1.
  rewrite (getOffset_spec key2 d Ha2) in H2.
  injection H1 as <-. injection H2 as H2.
  apply (digits_inj d); [done..|]. unfold offset_spec in H2.
  apply (offset_from_inj _ _ 0); [|by apply (digits_address d)..|done].
  rewrite !digits_length. destruct Ha1 as [-> _], Ha2 as [-> _]. done.
Qed.

Lemma getOffset_injective_witness :
  (2 <= 53)%nat /\ address 2 "31" /\ address 2 "31" /\
  getOffset "31" = OK (q (-3) 4, q (-1) 4) /\ "31"%string = "31"%string.
Proof.
  assert (2 <= 53)%nat as Hd by lia.
  assert (address 2 "31") as Ha by compute_done.
  assert (getOffset "31" = OK (q (-3) 4, q (-1) 4)) as H by compute_done.
  split; [exact Hd|]. split; [exact Ha|]. split; [exact Ha|].
  split; [exact H|].
  exact (getOffset_injective 2 "31" "31" _ Hd Ha Ha H H).
Defined.

(** ** Nodes: errors *)

Lemma library_lookup_None X Y k :
  k ∉ [1; 2; 3; 4]%Z ->
  pattern_X (library X Y) !! k = None /\
  pattern_Y (library X Y) !! k = None /\
  patternS_X (library X Y) !! k = None /\
  patternS_Y (library X Y) !! k = None /\
  patternE_X (library X Y) !! k = None /\
  patternE_Y (library X Y) !! k = None.
Proof.
  intros Hk. unfold library; cbn [pattern_X pattern_Y patternS_X patternS_Y
    patternE_X patternE_Y].
  assert (k <> 1 /\ k <> 2 /\ k <> 3 /\ k <> 4)%Z as (? & ? & ? & ?).
  { repeat split; intros ->; apply Hk; compute_done. }
  rewrite !symmetries_X_lookup_all, !symmetries_Y_lookup_all.
  rewrite !decide_False, !lookup_singleton_ne by done. done.
Qed.

(** On a library built by [Pattern.__init__], [get] raises [KeyError] for
    every orientation id outside 1..4, whatever the parent id, offset and
    flag, at every level from -1022 to 1024: there [1.0/2**(level-1)] is a
    finite double, so the scale is computed and the lookup is reached. *)
Theorem get_KeyError (X Y : array) (P : Pattern) (id idParent lv : Z)
    (off : Qc * Qc) (nParent : Z) :
  Pattern_init X Y = OK P -> id ∉ [1; 2; 3; 4]%Z ->
  (-1022 <= lv <= 1024)%Z ->
  get P id idParent lv off nParent = Raise KeyError.
Proof.
  rewrite Pattern_init_OK. intros [= <-] Hid _.
  destruct (library_lookup_None X Y id Hid) as (Hx & _ & Hsx & _).
  unfold get, getitem. rewrite Hx, Hsx. by destruct (_ || _).
Qed.

Lemma get_KeyError_witness :
  (5 ∉ [1; 2; 3; 4])%Z /\ (-1022 <= 1 <= 1024)%Z /\
  exists P, Pattern_init default_X default_Y = OK P /\
            get P 5 0 1 (0, 0) 1 = Raise KeyError.
Proof.
  assert (5 ∉ [1; 2; 3; 4])%Z as H by compute_done.
  assert (-1022 <= 1 <= 1024)%Z as Hlv by lia.
  split; [exact H|]. split; [exact Hlv|].
  exists (library default_X default_Y).
  split; [apply Pattern_init_OK|].
  exact (get_KeyError default_X default_Y _ 5 0 1 (0, 0) 1
           (Pattern_init_OK _ _) H Hlv).
Defined.

Lemma int_Some c n : Ascii.is_nat c = Some n -> int c = OK (Z.of_nat n).
Proof. unfold int. by intros ->. Qed.

Lemma int_None c : Ascii.is_nat c = None -> int c = Raise ValueError.
Proof. unfold int. by intros ->. Qed.

Lemma key_two_last (key : string) :
  (2 <= String.length key)%nat ->
  exists key0 c2 c1, key = (key0 +:+ String c2 EmptyString) +:+ String c1 EmptyString.
Proof.
  intros Hlen. rewrite chars_length in Hlen.
  remember (chars key) as cs eqn:E. symmetry in E.
  destruct cs as [|c1 cs _] using rev_ind; [simpl in Hlen; lia|].
  destruct cs as [|c2 cs _] using rev_ind;
    [rewrite length_app in Hlen; simpl in Hlen; lia|].
  exists (string_of_list_ascii cs), c2, c1. apply chars_inj.
  by rewrite !chars_app, list_ascii_of_string_of_list_ascii, E.
Qed.

(** [getFromKey] needs a key of at least two decimal digits: the empty key
    and a one-digit key raise [IndexError]; a key of 2 to 1024 characters
    with any character that is not a decimal digit raises [ValueError], and
    so does a single such character.  (Up to 1024 characters every
    [2**(i+1)] of [getOffset] on the key without its last character
    converts to a double.) *)
Theorem getFromKey_bad_keys (P : Pattern) (key : string) (nParent : Z) :
  (key = EmptyString -> getFromKey P key nParent = Raise IndexError) /\
  (forall c, key = String c EmptyString ->
     getFromKey P key nParent
     = match Ascii.is_nat c with
       | Some _ => Raise IndexError
       | None => Raise ValueError
       end) /\
  ((2 <= String.length key <= 1024)%nat ->
   ~ Forall (fun c => is_Some (Ascii.is_nat c)) (chars key) ->
   getFromKey P key nParent = Raise ValueError).
Proof.
  split; [by intros ->|]. split.
  - intros c ->. unfold getFromKey.
    change (String c EmptyString) with (EmptyString +:+ String c EmptyString).
    rewrite from_end_1, bind_OK. unfold int.
    by destruct (Ascii.is_nat c).
  - intros [Hlen _] Hbad.
    destruct (key_two_last key Hlen) as (key0 & c2 & c1 & ->).
    unfold getFromKey. rewrite from_end_1, bind_OK.
    destruct (Ascii.is_nat c1) as [n1|] eqn:H1;
      [|by rewrite (int_None c1 H1)].
    rewrite (int_Some c1 n1 H1), bind_OK, from_end_2, bind_OK.
    destruct (Ascii.is_nat c2) as [n2|] eqn:H2;
      [|by rewrite (int_None c2 H2)].
    rewrite (int_Some c2 n2 H2), bind_OK, but_last_snoc.
    assert (getOffset (key0 +:+ String c2 EmptyString) = Raise ValueError) as ->;
      [|done].
    unfold getOffset. rewrite getOffset_loop_raises; [done|].
    intros Hd. apply Hbad. rewrite chars_app. apply Forall_app.
    split; [done|]. repeat constructor. by exists n1.
Qed.

Lemma getFromKey_bad_keys_witness :
  (2 <= String.length "1a3" <= 1024)%nat /\
  ~ Forall (fun c => is_Some (Ascii.is_nat c)) (chars "1a3") /\
  getFromKey (library default_X default_Y) "1a3" 1 = Raise ValueError.
Proof.
  assert (2 <= String.length "1a3" <= 1024)%nat as Hl by (simpl; lia).
  assert (~ Forall (fun c => is_Some (Ascii.is_nat c)) (chars "1a3")) as Hb.
  { intros H. apply Forall_cons in H as [_ H].
    apply Forall_cons in H as [[n Hn] _]. discriminate Hn. }
  split; [exact Hl|]. split; [exact Hb|].
  exact (proj2 (proj2 (getFromKey_bad_keys _ "1a3" 1)) Hl Hb).
Defined.

(** ** Pattern library, continued *)

Lemma length_removelast {A} (l : list A) :
  length (removelast l) = (length l - 1)%nat.
Proof. rewrite removelast_firstn_len, length_take. lia. Qed.

(** [Pattern.__init__] on any X and Y, equal in length or not: the lengths
    of the arrays it stores, in each orientation.  The plain X and Y arrays
    have the same length exactly when X and Y do. *)
Theorem Pattern_init_lengths (X Y : array) (k : Z) :
  k ∈ [1; 2; 3; 4]%Z ->
  exists P x y sx sy ex ey,
    Pattern_init X Y = OK P /\
    (pattern_X P !! k = Some x /\ pattern_Y P !! k = Some y /\
     patternS_X P !! k = Some sx /\ patternS_Y P !! k = Some sy /\
     patternE_X P !! k = Some ex /\ patternE_Y P !! k = Some ey) /\
    (length x = length X + length X `min` length Y /\
     length y = length Y + length X `min` length Y /\
     length sx = length X - 1 + (length X - 1) `min` (length Y - 1) /\
     length sy = length Y - 1 + (length X - 1) `min` (length Y - 1) /\
     length ex = length sx `min` length sy /\
     length ey = length sx `min` length sy)%nat /\
    (length x = length y <-> length X = length Y).
Proof.
  intros Hk. exists (library X Y).
  destruct (library_lookups X Y k Hk)
    as (x & y & sx & sy & ex & ey & Hlook & Hx & Hy & Hsx & Hsy & Hex & Hey).
  exists x, y, sx, sy, ex, ey. split; [apply Pattern_init_OK|].
  split; [exact Hlook|].
  assert (length x = length X + length X `min` length Y /\
          length y = length Y + length X `min` length Y)%nat as [Hx' Hy'].
  { rewrite Hx, Hy. unfold plain_seed, reflect_points. cbn [fst snd].
    by rewrite !length_app, !length_reverse, !length_fmap, length_zip. }
  assert (length sx = length X - 1 + (length X - 1) `min` (length Y - 1) /\
          length sy = length Y - 1 + (length X - 1) `min` (length Y - 1))%nat
    as [Hsx' Hsy'].
  { rewrite Hsx, Hsy. unfold start_seed, reflect_points. cbn [fst snd].
    by rewrite !length_app, !length_reverse, !length_fmap, length_zip,
      !length_removelast. }
  split; [|lia].
  repeat split; try done.
  - rewrite Hex, Hsx, Hsy. unfold end_seed, reflect_points. cbn [fst snd].
    by rewrite !length_fmap, length_zip.
  - rewrite Hey, Hsx, Hsy. unfold end_seed, reflect_points. cbn [fst snd].
    by rewrite !length_fmap, length_zip.
Qed.

Lemma Pattern_init_lengths_witness :
  (2 ∈ [1; 2; 3; 4])%Z /\
  exists P x y,
    Pattern_init default_X [q 0 1; q 1 4] = OK P /\
    pattern_X P !! 2%Z = Some x /\ pattern_Y P !! 2%Z = Some y /\
    length x = 5%nat /\ length y = 4%nat.
Proof.
  assert (2 ∈ [1; 2; 3; 4])%Z as Hk by compute_done.
  split; [exact Hk|].
  destruct (Pattern_init_lengths default_X [q 0 1; q 1 4] 2 Hk)
    as (P & x & y & sx & sy & ex & ey & HP & (Hx & Hy & _) & (Hlx & Hly & _)
        & _).
  exists P, x, y. split; [exact HP|]. split; [exact Hx|]. split; [exact Hy|].
  split; [exact Hlx|exact Hly].
Defined.

Lemma plain_seed_points (ps : list (Qc * Qc)) :
  plain_seed ps.*1 ps.*2
  = ((ps ++ reverse (reflect_points (-1) (-1) 0 ps)).*1,
     (ps ++ reverse (reflect_points (-1) (-1) 0 ps)).*2).
Proof.
  unfold plain_seed. rewrite zip_fst_snd. cbv zeta.
  by rewrite !fmap_app, !fmap_reverse.
Qed.

Lemma reflect_points_app a b c ps1 ps2 :
  reflect_points a b c (ps1 ++ ps2)
  = reflect_points a b c ps1 ++ reflect_points a b c ps2.
Proof. unfold reflect_points. apply fmap_app. Qed.

Lemma reflect_points_reverse a b c ps :
  reflect_points a b c (reverse ps) = reverse (reflect_points a b c ps).
Proof. unfold reflect_points. apply fmap_reverse. Qed.

(** The plain motif of orientation 1 is symmetric about the line
    [x + y = 0]: reflecting it over that line gives the same polyline
    traversed backwards. *)
Theorem plain_pattern_symmetric (X Y : array) :
  length X = length Y ->
  exists P x y,
    Pattern_init X Y = OK P /\
    pattern_X P !! 1%Z = Some x /\ pattern_Y P !! 1%Z = Some y /\
    symmetrize (-1) (-1) 0 x y = OK (flipud x, flipud y).
Proof.
  intros Hlen. exists (library X Y), (plain_seed X Y).1, (plain_seed X Y).2.
  split; [apply Pattern_init_OK|].
  unfold library; cbn [pattern_X pattern_Y].
  rewrite symmetries_X_singleton, symmetries_Y_singleton.
  split; [done|]. split; [done|].
  rewrite symmetrize_OK by compute_done.
  assert (X = (zip X Y).*1 /\ Y = (zip X Y).*2) as [HX HY].
  { by rewrite fst_zip, snd_zip by lia. }
  revert HX HY. generalize (zip X Y). intros ps -> ->.
  rewrite plain_seed_points. cbn [fst snd]. rewrite zip_fst_snd.
  rewrite reflect_points_app, reflect_points_reverse.
  rewrite reflect_points_involutive by compute_done.
  unfold flipud.
  by rewrite <- !fmap_reverse, reverse_app, reverse_involutive.
Qed.

Lemma plain_pattern_symmetric_witness :
  length default_X = length default_Y /\
  exists P x y,
    Pattern_init default_X default_Y = OK P /\
    pattern_X P !! 1%Z = Some x /\ pattern_Y P !! 1%Z = Some y /\
    symmetrize (-1) (-1) 0 x y = OK (flipud x, flipud y).
Proof.
  split; [reflexivity|].
  exact (plain_pattern_symmetric default_X default_Y eq_refl).
Defined.

(** ** Levels, continued *)

Lemma level_ok_unique P d (m1 m2 : gmap string geometry) :
  level_ok P d m1 -> level_ok P d m2 -> m1 = m2.
Proof. intros H1 H2. apply map_eq. intros key. by rewrite H1, H2. Qed.

Lemma levels_ok_unique P j (l1 l2 : gmap Z (gmap string geometry)) :
  levels_ok P j l1 -> levels_ok P j l2 -> l1 = l2.
Proof.
  intros [H1 N1] [H2 N2]. apply map_eq. intros z.
  destruct (decide (1 <= z <= Z.of_nat j)%Z) as [Hz|Hz].
  - destruct (H1 (Z.to_nat z)) as (m1 & Hm1 & Hok1); [lia|].
    destruct (H2 (Z.to_nat z)) as (m2 & Hm2 & Hok2); [lia|].
    rewrite Z2Nat.id in Hm1, Hm2 by lia. rewrite Hm1, Hm2. f_equal.
    by apply (level_ok_unique P (Z.to_nat z)).
  - rewrite N1, N2 by lia. done.
Qed.

Lemma Steinhaus_init_inv X Y nLevel s :
  Steinhaus_init nLevel X Y = OK s ->
  s = mkSteinhaus nLevel (library X Y) (lines s) /\
  levels_ok (library X Y) (depth nLevel) (lines s).
Proof.
  destruct (Steinhaus_init_spec X Y nLevel) as (ls & -> & Hok).
  by intros [= <-].
Qed.

Lemma Steinhaus_lines_dom X Y nLevel s z :
  Steinhaus_init nLevel X Y = OK s ->
  is_Some (lines s !! z) <-> (1 <= z <= Z.max nLevel 1)%Z.
Proof.
  intros Hs. destruct (Steinhaus_init_inv X Y nLevel s Hs) as [E [Hlev Hno]].
  split.
  - intros Hz. destruct (decide (1 <= z <= Z.max nLevel 1)%Z); [done|].
    rewrite Hno in Hz by (unfold depth; lia). by apply is_Some_None in Hz.
  - intros Hz. destruct (Hlev (Z.to_nat z)) as (m & Hm & _);
      [unfold depth; lia|].
    rewrite Z2Nat.id in Hm by lia. by exists m.
Qed.

(** [generateLevel] reads the previous level: on a curve built with
    requested depth [nLevel] it raises [KeyError] for every level outside
    [2 .. max nLevel 1 + 1], that is, whenever the level before is not
    there. *)
Theorem generateLevel_KeyError (X Y : array) (nLevel : Z) (s : Steinhaus)
    (n : Z) :
  Steinhaus_init nLevel X Y = OK s ->
  ~ (2 <= n <= Z.max nLevel 1 + 1)%Z ->
  generateLevel (pattern s) (lines s) n = Raise KeyError.
Proof.
  intros Hs Hn. unfold generateLevel, getitem.
  rewrite lookup_insert_ne by lia.
  destruct (lines s !! (n - 1)%Z) as [prev|] eqn:E; [|done].
  assert (is_Some (lines s !! (n - 1)%Z)) as Hp by by eexists.
  apply (Steinhaus_lines_dom X Y nLevel s _ Hs) in Hp. lia.
Qed.

Lemma generateLevel_KeyError_witness :
  ~ (2 <= 4 <= Z.max 2 1 + 1)%Z /\
  exists s,
    Steinhaus_init 2 default_X default_Y = OK s /\
    generateLevel (pattern s) (lines s) 4 = Raise KeyError.
Proof.
  assert (~ (2 <= 4 <= Z.max 2 1 + 1)%Z) as Hn by (simpl; lia).
  split; [exact Hn|].
  destruct (Steinhaus_init_spec default_X default_Y 2) as (ls & Hs & _).
  eexists. split; [exact Hs|].
  exact (generateLevel_KeyError default_X default_Y 2 _ 4 Hs Hn).
Defined.

(** The dictionary of levels of a curve built with requested depth
    [nLevel] holds exactly the levels [1 .. max nLevel 1]; the [level]
    attribute keeps the requested value, also when it is below 1. *)
Theorem Steinhaus_init_levels (X Y : array) (nLevel : Z) (s : Steinhaus) :
  Steinhaus_init nLevel X Y = OK s ->
  level s = nLevel /\
  forall z, is_Some (lines s !! z) <-> (1 <= z <= Z.max nLevel 1)%Z.
Proof.
  intros Hs. destruct (Steinhaus_init_inv X Y nLevel s Hs) as [E _].
  split; [by rewrite E|]. intros z.
  by apply (Steinhaus_lines_dom X Y nLevel).
Qed.

Lemma Steinhaus_init_levels_witness :
  exists s,
    Steinhaus_init (-2) default_X default_Y = OK s /\
    level s = (-2)%Z /\ is_Some (lines s !! 1%Z) /\
    ~ is_Some (lines s !! 2%Z).
Proof.
  destruct (Steinhaus_init_spec default_X default_Y (-2)) as (ls & Hs & _).
  eexists. split; [exact Hs|].
  destruct (Steinhaus_init_levels default_X default_Y (-2) _ Hs) as [Hl Hz].
  split; [exact Hl|]. split.
  - apply Hz. simpl. lia.
  - intros H%Hz. simpl in H. lia.
Defined.

(** A level does not depend on the requested depth: two runs on the same
    seed agree on every level both of them build. *)
Theorem Steinhaus_init_level_stable (X Y : array) (n1 n2 : Z)
    (s1 s2 : Steinhaus) (z : Z) :
  Steinhaus_init n1 X Y = OK s1 -> Steinhaus_init n2 X Y = OK s2 ->
  (1 <= z <= Z.max n1 1)%Z -> (1 <= z <= Z.max n2 1)%Z ->
  lines s1 !! z = lines s2 !! z /\ is_Some (lines s1 !! z).
Proof.
  intros H1 H2 Hz1 Hz2.
  destruct (Steinhaus_init_inv X Y n1 s1 H1) as [_ [Hlev1 _]].
  destruct (Steinhaus_init_inv X Y n2 s2 H2) as [_ [Hlev2 _]].
  destruct (Hlev1 (Z.to_nat z)) as (m1 & Hm1 & Hok1); [unfold depth; lia|].
  destruct (Hlev2 (Z.to_nat z)) as (m2 & Hm2 & Hok2); [unfold depth; lia|].
  rewrite Z2Nat.id in Hm1, Hm2 by lia. rewrite Hm1, Hm2.
  split; [|by eexists]. f_equal.
  by apply (level_ok_unique (library X Y) (Z.to_nat z)).
Qed.

Lemma Steinhaus_init_level_stable_witness :
  (1 <= 2 <= Z.max 2 1)%Z /\ (1 <= 2 <= Z.max 3 1)%Z /\
  exists s1 s2,
    Steinhaus_init 2 default_X default_Y = OK s1 /\
    Steinhaus_init 3 default_X default_Y = OK s2 /\
    lines s1 !! 2%Z = lines s2 !! 2%Z.
Proof.
  assert (1 <= 2 <= Z.max 2 1)%Z as Hz1 by (simpl; lia).
  assert (1 <= 2 <= Z.max 3 1)%Z as Hz2 by (simpl; lia).
  split; [exact Hz1|]. split; [exact Hz2|].
  destruct (Steinhaus_init_spec default_X default_Y 2) as (l1 & H1 & _).
  destruct (Steinhaus_init_spec default_X default_Y 3) as (l2 & H2 & _).
  eexists _, _. split; [exact H1|]. split; [exact H2|].
  exact (proj1 (Steinhaus_init_level_stable default_X default_Y 2 3 _ _ 2
                  H1 H2 Hz1 Hz2)).
Defined.

(** Regenerating a level that is already built changes nothing, and
    generating the level after the last one gives the dictionary of the
    run with one more level. *)
Theorem generateLevel_rebuild (X Y : array) (nLevel : Z) (s : Steinhaus)
    (n : Z) :
  Steinhaus_init nLevel X Y = OK s ->
  (2 <= n <= Z.max nLevel 1 + 1)%Z ->
  exists s',
    Steinhaus_init (Z.max (Z.max nLevel 1) n) X Y = OK s' /\
    generateLevel (pattern s) (lines s) n = OK (lines s') /\
    ((n <= Z.max nLevel 1)%Z -> lines s' = lines s).
Proof.
  intros Hs Hn.
  destruct (Steinhaus_init_inv X Y nLevel s Hs) as [E Hok].
  destruct (Steinhaus_init_spec X Y (Z.max (Z.max nLevel 1) n))
    as (ls' & Hs' & Hok').
  eexists. split; [exact Hs'|]. cbn [lines].
  rewrite E. cbn [pattern lines].
  destruct Hok as [Hlev Hno].
  destruct (Hlev (Z.to_nat (n - 1))) as (prev & Hprev & Hprev_ok);
    [unfold depth; lia|].
  destruct (Z.to_nat (n - 1)) as [|d] eqn:Ed; [lia|].
  destruct (generateLevel_spec X Y (lines s) d prev Hprev Hprev_ok)
    as [Hgen Hnew].
  replace (Z.of_nat (S (S d))) with n in Hgen by lia.
  rewrite Hgen.
  assert (levels_ok (library X Y) (depth (Z.max (Z.max nLevel 1) n))
            (<[n := gathered (library X Y) (map_to_list prev) ∅]> (lines s)))
    as Hext.
  { split.
    - intros d' Hd'. destruct (decide (Z.of_nat d' = n)) as [<-|Hne].
      + eexists. rewrite lookup_insert_eq. split; [done|].
        by replace d' with (S (S d)) by lia.
      + rewrite lookup_insert_ne by lia. apply Hlev. unfold depth in *. lia.
    - intros z Hz. rewrite lookup_insert_ne by (unfold depth in *; lia).
      apply Hno. unfold depth in *. lia. }
  split.
  - f_equal. by apply (levels_ok_unique (library X Y) _ _ _ Hext).
  - intros Hle.
    replace (Z.max (Z.max nLevel 1) n) with (Z.max nLevel 1) in Hok' by lia.
    apply (levels_ok_unique (library X Y) (depth (Z.max nLevel 1)));
      [done|].
    by replace (depth (Z.max nLevel 1)) with (depth nLevel)
      by (unfold depth; lia).
Qed.

Lemma generateLevel_rebuild_witness :
  (2 <= 2 <= Z.max 2 1 + 1)%Z /\
  exists s,
    Steinhaus_init 2 default_X default_Y = OK s /\
    generateLevel (pattern s) (lines s) 2 = OK (lines s).
Proof.
  assert (2 <= 2 <= Z.max 2 1 + 1)%Z as Hn by (simpl; lia).
  split; [exact Hn|].
  destruct (Steinhaus_init_spec default_X default_Y 2) as (ls & Hs & _).
  eexists. split; [exact Hs|].
  destruct (generateLevel_rebuild default_X default_Y 2 _ 2 Hs Hn)
    as (s' & _ & Hgen & Heq).
  rewrite Hgen. f_equal. apply Heq. simpl. lia.
Defined.

(** ** Stored nodes *)

Lemma junction_children_count (p : Z) (two : Prop) `{Decision two} :
  p ∈ [1; 2; 3; 4]%Z ->
  length (filter (fun k => k = (5 - p)%Z \/ (two /\ k = p)) [1; 2; 3; 4]%Z)
  = if decide two then 2%nat else 1%nat.
Proof.
  intros Hp. apply elem_of_ids in Hp as [-> | [-> | [-> | ->]]];
    destruct (decide two) as [Ht|Ht];
    repeat first
      [ rewrite filter_cons_True by (first [by left | by right])
      | rewrite filter_cons_False by (intros [?|[? ?]]; (lia || done)) ];
    reflexivity.
Qed.

Lemma Steinhaus_entry X Y nLevel s z (m : gmap string geometry) key g :
  Steinhaus_init nLevel X Y = OK s ->
  lines s !! z = Some m -> m !! key = Some g ->
  exists d key0 c k,
    z = Z.of_nat (S d) /\ (S d <= depth nLevel)%nat /\
    level_ok (library X Y) (S d) m /\
    key = key0 +:+ String c EmptyString /\ address d key0 /\
    c ∈ digit_chars /\ digit c = k /\ k ∈ [1; 2; 3; 4]%Z /\
    str k = String c EmptyString /\
    g = resolve (library X Y) (digits key0 ++ [k]).
Proof.
  intros Hs Hm Hg.
  pose proof (fun z => Steinhaus_lines_dom X Y nLevel s z Hs) as Hdom.
  destruct (Steinhaus_init_inv X Y nLevel s Hs) as [_ [Hlev _]].
  assert (1 <= z <= Z.max nLevel 1)%Z as Hz by (apply Hdom; by eexists).
  destruct (Hlev (Z.to_nat z)) as (m' & Hm' & Hok); [unfold depth; lia|].
  rewrite Z2Nat.id, Hm in Hm' by lia. injection Hm' as <-.
  destruct (level_ok_lookup X Y _ m key g Hok Hg) as [Hkey ->].
  destruct (Z.to_nat z) as [|d] eqn:Ed; [lia|].
  destruct (address_inv d key Hkey) as (key0 & c & -> & Hkey0 & Hc).
  destruct (digit_chars_elem c Hc) as (k & Hk & Hstr & _ & Hd).
  exists d, key0, c, k. rewrite digits_snoc, Hd.
  split; [lia|]. split; [unfold depth; lia|]. split; [done|].
  repeat (split; [done|]). done.
Qed.

(** How the connector flag is handed down: a child [k] of a stored node is
    a connector junction (two polylines) exactly when [k = 5 - p], or the
    parent is itself a junction and [k = p], where [p] is the last digit of
    the parent's address.  So a plain node has one junction child and a
    junction node has two. *)
Theorem connector_propagation (X Y : array) (nLevel : Z) (s : Steinhaus)
    (z : Z) (m m' : gmap string geometry) (parent : string) (g : geometry)
    (k : Z) :
  Steinhaus_init nLevel X Y = OK s ->
  lines s !! z = Some m -> m !! parent = Some g ->
  lines s !! (z + 1)%Z = Some m' -> k ∈ [1; 2; 3; 4]%Z ->
  exists g' p,
    m' !! (parent +:+ str k) = Some g' /\
    (from_end parent 1 ≫= int) = OK p /\
    (length g'.1 = 2%nat
     <-> k = (5 - p)%Z \/ (length g.1 = 2%nat /\ k = p)) /\
    (length g'.1 = 1%nat
     <-> ~ (k = (5 - p)%Z \/ (length g.1 = 2%nat /\ k = p))) /\
    length (filter (fun k' => k' = (5 - p)%Z \/ (length g.1 = 2%nat /\ k' = p))
              [1; 2; 3; 4]%Z)
    = if decide (length g.1 = 2%nat) then 2%nat else 1%nat.
Proof.
  intros Hs Hm Hg Hm' Hk.
  destruct (Steinhaus_entry X Y nLevel s z m parent g Hs Hm Hg)
    as (d & key0 & c & p & -> & Hd & Hok & -> & Hkey0 & Hc & Hdc & Hp & Hstr
        & ->).
  pose proof (fun z => Steinhaus_lines_dom X Y nLevel s z Hs) as Hdom.
  destruct (Steinhaus_init_inv X Y nLevel s Hs) as [_ [Hlev _]].
  assert (1 <= Z.of_nat (S d) + 1 <= Z.max nLevel 1)%Z as Hz
    by (apply Hdom; by eexists).
  destruct (Hlev (S (S d))) as (m2 & Hm2 & Hok2); [unfold depth; lia|].
  replace (Z.of_nat (S (S d))) with (Z.of_nat (S d) + 1)%Z in Hm2 by lia.
  rewrite Hm' in Hm2. injection Hm2 as <-.
  destruct (str_digit k Hk) as (ck & Hck & Hstrk & _ & Hdk).
  exists (resolve (library X Y) ((digits key0 ++ [p]) ++ [k])), p.
  assert (address (S d) (key0 +:+ String c EmptyString)) as Hparent
    by by apply address_snoc.
  split.
  { rewrite Hok2, decide_True by (rewrite Hstrk; by apply address_snoc).
    by rewrite Hstrk, !digits_snoc, Hdc, Hdk. }
  split.
  { rewrite from_end_1, bind_OK. unfold int, digit in *.
    destruct (Ascii.is_nat c); [by rewrite Hdc|].
    subst p. exfalso. apply elem_of_ids in Hp. lia. }
  assert (Z.of_nat (length (resolve (library X Y) (digits key0 ++ [p])).1)
          = (node_state (digits key0 ++ [p])).2) as Hflag
    by apply resolve_flag.
  assert ((node_state (digits key0 ++ [p])).1 = p) as Hid
    by by rewrite node_state_snoc.
  assert ((node_state (digits key0 ++ [p])).2 = 1 \/
          (node_state (digits key0 ++ [p])).2 = 2)%Z as Hcases.
  { rewrite node_state_snoc. unfold descend. cbn [snd].
    destruct (decide _); auto. }
  rewrite (resolve_snoc _ (digits key0 ++ [p]) k), Hid.
  set (n := (node_state (digits key0 ++ [p])).2) in *.
  set (len := length (resolve (library X Y) (digits key0 ++ [p])).1) in *.
  assert (len = 2%nat <-> n = 2%Z) as Hlen by lia.
  split; [|split].
  - destruct (decide (is_junction k p n)) as [Hj|Hj]; cbn.
    + split; [|done]. intros _. destruct Hj as [->|[Hn ->]]; [by left|].
      right. by rewrite Hlen.
    + split; [done|]. intros [->|[Hn ->]]; destruct Hj; [by left|].
      right. by rewrite <- Hlen.
  - destruct (decide (is_junction k p n)) as [Hj|Hj]; cbn.
    + split; [done|]. intros Hn. destruct Hn.
      destruct Hj as [->|[Hn ->]]; [by left|]. right. by rewrite Hlen.
    + split; [|done]. intros _ [->|[Hn ->]]; destruct Hj; [by left|].
      right. by rewrite <- Hlen.
  - by apply junction_children_count.
Qed.

Lemma connector_propagation_witness :
  (4 ∈ [1; 2; 3; 4])%Z /\
  exists s m m',
    Steinhaus_init 2 default_X default_Y = OK s /\
    lines s !! 1%Z = Some m /\ is_Some (m !! "1"%string) /\
    lines s !! (1 + 1)%Z = Some m' /\
    exists g', m' !! ("1" +:+ str 4) = Some g' /\ length g'.1 = 2%nat.
Proof.
  assert (4 ∈ [1; 2; 3; 4])%Z as Hk by compute_done.
  split; [exact Hk|].
  destruct (Steinhaus_init_spec default_X default_Y 2)
    as (ls & Hs & Hlev & _).
  destruct (Hlev 1%nat) as (m & Hm & Hok); [vm_compute; lia|].
  destruct (Hlev 2%nat) as (m' & Hm' & _); [vm_compute; lia|].
  assert (m !! "1"%string = Some (resolve (library default_X default_Y)
                                    (digits "1"))) as Hg.
  { rewrite Hok. by rewrite decide_True by compute_done. }
  eexists _, m, m'. split; [exact Hs|]. cbn [lines].
  split; [exact Hm|]. split; [by eexists|]. split; [exact Hm'|].
  destruct (connector_propagation default_X default_Y 2 _ 1 m m' "1" _ 4
              Hs Hm Hg Hm' Hk) as (g' & p & Hg' & Hp & Hiff & _).
  exists g'. split; [exact Hg'|]. apply Hiff. left.
  assert (p = 1%Z) as -> by (vm_compute in Hp; by injection Hp).
  reflexivity.
Defined.

Lemma length_affine scale a off : length (affine scale a off) = length a.
Proof. unfold affine. apply length_fmap. Qed.

(** What the renderer receives: with X and Y of one length [n], every
    stored node is either one polyline of [2 n] points or two polylines of
    [2 (n - 1)] points each, and the X and Y arrays of a polyline always
    have the same length. *)
Theorem stored_polylines (X Y : array) (n : nat) (nLevel : Z)
    (s : Steinhaus) (z : Z) (m : gmap string geometry) (key : string)
    (g : geometry) :
  length X = n -> length Y = n ->
  Steinhaus_init nLevel X Y = OK s ->
  lines s !! z = Some m -> m !! key = Some g ->
  (exists x y, g = ([x], [y]) /\
     length x = (2 * n)%nat /\ length y = (2 * n)%nat) \/
  (exists sx ex sy ey, g = ([sx; ex], [sy; ey]) /\
     length sx = (2 * (n - 1))%nat /\ length sy = (2 * (n - 1))%nat /\
     length ex = (2 * (n - 1))%nat /\ length ey = (2 * (n - 1))%nat).
Proof.
  intros HX HY Hs Hm Hg.
  destruct (Steinhaus_entry X Y nLevel s z m key g Hs Hm Hg)
    as (d & key0 & c & k & _ & _ & _ & _ & _ & _ & _ & Hk & _ & ->).
  destruct (library_lookups X Y k Hk)
    as (x & y & sx & sy & ex & ey & (Hx & Hy & Hsx & Hsy & Hex & Hey)
        & Lx & Ly & Lsx & Lsy & Lex & Ley).
  destruct (seed_lengths X Y n HX HY) as ([? ?] & [? ?] & [? ?]).
  rewrite resolve_snoc. destruct (decide _).
  - right. unfold junction_node.
    rewrite !lookup_total_alt, Hsx, Hsy, Hex, Hey. cbn [default]. unfold id.
    eexists _, _, _, _. split; [done|].
    rewrite !length_affine. repeat split; lia.
  - left. unfold plain_node.
    rewrite !lookup_total_alt, Hx, Hy. cbn [default]. unfold id.
    eexists _, _. split; [done|].
    rewrite !length_affine. split; lia.
Qed.

Lemma stored_polylines_witness :
  length default_X = 3%nat /\ length default_Y = 3%nat /\
  exists s m g,
    Steinhaus_init 2 default_X default_Y = OK s /\
    lines s !! 2%Z = Some m /\ m !! "14"%string = Some g /\
    ((exists x y, g = ([x], [y]) /\
        length x = (2 * 3)%nat /\ length y = (2 * 3)%nat) \/
     (exists sx ex sy ey, g = ([sx; ex], [sy; ey]) /\
        length sx = (2 * (3 - 1))%nat /\ length sy = (2 * (3 - 1))%nat /\
        length ex = (2 * (3 - 1))%nat /\ length ey = (2 * (3 - 1))%nat)).
Proof.
  split; [reflexivity|]. split; [reflexivity|].
  destruct (Steinhaus_init_spec default_X default_Y 2)
    as (ls & Hs & Hlev & _).
  destruct (Hlev 2%nat) as (m & Hm & Hok); [vm_compute; lia|].
  assert (m !! "14"%string = Some (resolve (library default_X default_Y)
                                     (digits "14"))) as Hg.
  { rewrite Hok. by rewrite decide_True by compute_done. }
  eexists _, m, _. split; [exact Hs|]. split; [exact Hm|].
  split; [exact Hg|].
  exact (stored_polylines default_X default_Y 3 2 _ 2 m "14" _
           eq_refl eq_refl Hs Hm Hg).
Defined.

Lemma scaled_within (s x : Qc) :
  0 <= s -> - (1) <= x -> x <= 1 -> - s <= s * x /\ s * x <= s.
Proof.
  intros Hs Hl Hu.
  pose proof (Qcmult_le_compat_r _ _ _ Hu Hs) as H1.
  pose proof (Qcmult_le_compat_r _ _ _ Hl Hs) as H2.
  rewrite (Qcmult_comm x s) in H1, H2.
  rewrite Qcmult_1_l in H1.
  replace (- (1) * s) with (- s) in H2 by ring.
  done.
Qed.

Lemma affine_within (s o : Qc) (a : array) :
  0 <= s -> - (1 - s) <= o -> o <= 1 - s ->
  within_unit a -> within_unit (affine s a o).
Proof.
  intros Hs Hl Hu Ha. unfold within_unit, affine. apply Forall_fmap.
  eapply Forall_impl; [exact Ha|]. intros x [Hxl Hxu]. simpl.
  destruct (scaled_within s x Hs Hxl Hxu) as [H1 H2].
  revert H1 H2. generalize (s * x). intros t H1 H2. split; qc_lra.
Qed.

(** When every array of the pattern library lies in [[-1, 1]], so does
    every coordinate of every stored node, at every level: the curve
    stays inside the viewport [[-1, 1] x [-1, 1]]. *)
Theorem curve_within_viewport (X Y : array) (nLevel : Z) (s : Steinhaus)
    (z : Z) (m : gmap string geometry) (key : string) (g : geometry) :
  Steinhaus_init nLevel X Y = OK s ->
  library_within_unit (pattern s) ->
  lines s !! z = Some m -> m !! key = Some g ->
  Forall within_unit g.1 /\ Forall within_unit g.2.
Proof.
  intros Hs Hlib Hm Hg.
  destruct (Steinhaus_entry X Y nLevel s z m key g Hs Hm Hg)
    as (d & key0 & c & k & _ & _ & _ & _ & Hkey0 & _ & _ & Hk & _ & ->).
  destruct (Steinhaus_init_inv X Y nLevel s Hs) as [E _].
  rewrite E in Hlib. cbn [pattern] in Hlib.
  destruct Hlib as (Bx & By & Bsx & Bsy & Bex & Bey).
  destruct (library_lookups X Y k Hk)
    as (x & y & sx & sy & ex & ey & (Hx & Hy & Hsx & Hsy & Hex & Hey) & _).
  pose proof (offset_from_bound (digits key0) 0) as HB. cbv zeta in HB.
  cbn [Nat.add] in HB. rewrite scale_0 in HB.
  fold (offset_spec (digits key0)) in HB.
  destruct HB as [[Hxl Hxu] [Hyl Hyu]].
  pose proof (half_pow_pos (length (digits key0))) as Hpos.
  assert (0 <= 1 / 2 ^ length (digits key0)) as Hs0 by by apply Qclt_le_weak.
  rewrite resolve_snoc. destruct (decide _).
  - unfold junction_node.
    rewrite !lookup_total_alt, Hsx, Hsy, Hex, Hey. cbn [default fst snd].
    unfold id.
    split; repeat constructor; apply affine_within; try done.
    + exact (Bsx _ _ Hsx).
    + exact (Bex _ _ Hex).
    + exact (Bsy _ _ Hsy).
    + exact (Bey _ _ Hey).
  - unfold plain_node.
    rewrite !lookup_total_alt, Hx, Hy. cbn [default fst snd]. unfold id.
    split; repeat constructor; apply affine_within; try done.
    + exact (Bx _ _ Hx).
    + exact (By _ _ Hy).
Qed.

Lemma curve_within_viewport_witness :
  library_within_unit (library default_X default_Y) /\
  exists s m g,
    Steinhaus_init 3 default_X default_Y = OK s /\
    lines s !! 3%Z = Some m /\ m !! "142"%string = Some g /\
    Forall within_unit g.1 /\ Forall within_unit g.2.
Proof.
  assert (library_within_unit (library default_X default_Y)) as Hlib
    by compute_done.
  split; [exact Hlib|].
  destruct (Steinhaus_init_spec default_X default_Y 3)
    as (ls & Hs & Hlev & _).
  destruct (Hlev 3%nat) as (m & Hm & Hok); [vm_compute; lia|].
  assert (m !! "142"%string = Some (resolve (library default_X default_Y)
                                      (digits "142"))) as Hg.
  { rewrite Hok. by rewrite decide_True by compute_done. }
  eexists _, m, _. split; [exact Hs|]. split; [exact Hm|].
  split; [exact Hg|].
  exact (curve_within_viewport default_X default_Y 3 _ 3 m "142" _
           Hs Hlib Hm Hg).
Defined.

(** ** Counting connector junctions *)

Lemma length_filter_fmap {A B} (f : A -> B) (P : B -> Prop)
    `{!forall x, Decision (P x)} (l : list A) :
  length (filter P (f <$> l)) = length (filter (fun x => P (f x)) l).
Proof.
  induction l as [|x l IH]; [done|]. cbn [fmap list_fmap].
  rewrite !filter_cons. fold (fmap f l).
  destruct (decide (P (f x))); simpl; by rewrite IH.
Qed.

Lemma filter_iff_in {A} (P1 P2 : A -> Prop)
    `{!forall x, Decision (P1 x), !forall x, Decision (P2 x)} (l : list A) :
  (forall x, x ∈ l -> P1 x <-> P2 x) -> filter P1 l = filter P2 l.
Proof.
  induction l as [|a l IH]; intros Hiff; [done|].
  rewrite !filter_cons.
  assert (filter P1 l = filter P2 l) as ->
    by (apply IH; intros x Hx; apply Hiff; by right).
  pose proof (Hiff a ltac:(by left)) as Ha.
  destruct (decide (P1 a)), (decide (P2 a)); tauto.
Qed.

Lemma junction_count_0 st :
  junction_count st 0 = if decide (st.2 = 2%Z) then 1%nat else 0%nat.
Proof.
  unfold junction_count. cbn [all_keys]. rewrite filter_cons, filter_nil.
  cbn [digits chars fmap list_fmap foldl].
  by destruct (decide _).
Qed.

Lemma junction_count_S st d :
  junction_count st (S d)
  = (junction_count (descend st 1) d + junction_count (descend st 2) d
     + junction_count (descend st 3) d + junction_count (descend st 4) d)%nat.
Proof.
  unfold junction_count.
  cbn [all_keys digit_chars mbind list_bind app].
  rewrite !filter_app, !length_app, filter_nil, !length_filter_fmap.
  cbn [length]. rewrite Nat.add_0_r, !Nat.add_assoc. reflexivity.
Qed.

Lemma junction_count_closed d p :
  p ∈ [1; 2; 3; 4]%Z ->
  (3 * junction_count (p, 1%Z) d + 1 = 4 ^ d)%nat /\
  junction_count (p, 2%Z) d = S (junction_count (p, 1%Z) d).
Proof.
  revert p. induction d as [|d IH]; intros p Hp.
  - by rewrite !junction_count_0.
  - rewrite !junction_count_S.
    destruct (IH 1%Z ltac:(compute_done)) as [A1 B1].
    destruct (IH 2%Z ltac:(compute_done)) as [A2 B2].
    destruct (IH 3%Z ltac:(compute_done)) as [A3 B3].
    destruct (IH 4%Z ltac:(compute_done)) as [A4 B4].
    rewrite Nat.pow_succ_r'.
    apply elem_of_ids in Hp as [-> | [-> | [-> | ->]]];
      repeat match goal with
      | |- context [descend (?a, ?b) ?k] =>
          let v := eval vm_compute in (descend (a, b) k) in
          change (descend (a, b) k) with v
      end; lia.
Qed.

Lemma junction_count_roots d :
  (3 * junction_count (0%Z, 1%Z) (S d) + 4 = 4 ^ S d)%nat.
Proof.
  rewrite junction_count_S.
  destruct (junction_count_closed d 1%Z ltac:(compute_done)) as [A1 _].
  destruct (junction_count_closed d 2%Z ltac:(compute_done)) as [A2 _].
  destruct (junction_count_closed d 3%Z ltac:(compute_done)) as [A3 _].
  destruct (junction_count_closed d 4%Z ltac:(compute_done)) as [A4 _].
  rewrite Nat.pow_succ_r'.
  repeat match goal with
  | |- context [descend (?a, ?b) ?k] =>
      let v := eval vm_compute in (descend (a, b) k) in
      change (descend (a, b) k) with v
  end; lia.
Qed.

Lemma resolve_two_polylines P ds :
  ds <> [] ->
  length (resolve P ds).1 = 2%nat <-> (node_state ds).2 = 2%Z.
Proof.
  intros Hds. destruct ds as [|k ds _] using rev_ind; [done|].
  pose proof (resolve_flag P ds k) as H.
  rewrite node_state_snoc in *. unfold descend in *. cbn [snd] in *.
  destruct (decide _); lia.
Qed.

Lemma level_filter_size X Y d (m : gmap string geometry) (n : nat) :
  level_ok (library X Y) d m ->
  size (filter (fun kg => length kg.2.1 = n) m)
  = length (filter (fun key => length (resolve (library X Y)
                                         (digits key)).1 = n)
              (all_keys d)).
Proof.
  intros Hok. rewrite <- size_dom.
  assert (dom (filter (fun kg => length kg.2.1 = n) m)
          = list_to_set
              (filter (fun key => length (resolve (library X Y)
                                            (digits key)).1 = n)
                 (all_keys d))) as ->.
  { apply set_eq. intros key.
    rewrite elem_of_dom, elem_of_list_to_set, list_elem_of_filter,
      elem_of_all_keys. split.
    - intros [g [Hg Hn]%map_lookup_filter_Some].
      destruct (level_ok_lookup X Y _ m key g Hok Hg) as [Hkey ->]. done.
    - intros [Hn Hkey]. eexists. apply map_lookup_filter_Some.
      split; [|exact Hn]. by rewrite Hok, decide_True. }
  rewrite size_list_to_set; [done|].
  apply NoDup_filter, NoDup_all_keys.
Qed.

Lemma Steinhaus_level X Y nLevel s z (m : gmap string geometry) :
  Steinhaus_init nLevel X Y = OK s -> lines s !! z = Some m ->
  exists d, Z.to_nat z = S d /\ (1 <= z <= Z.max nLevel 1)%Z /\
            level_ok (library X Y) (S d) m.
Proof.
  intros Hs Hm.
  pose proof (fun z => Steinhaus_lines_dom X Y nLevel s z Hs) as Hdom.
  destruct (Steinhaus_init_inv X Y nLevel s Hs) as [_ [Hlev _]].
  assert (1 <= z <= Z.max nLevel 1)%Z as Hz by (apply Hdom; by eexists).
  destruct (Hlev (Z.to_nat z)) as (m' & Hm' & Hok); [unfold depth; lia|].
  rewrite Z2Nat.id, Hm in Hm' by lia. injection Hm' as <-.
  destruct (Z.to_nat z) as [|d] eqn:Ed; [lia|]. by exists d.
Qed.

Lemma junction_size X Y nLevel s z (m : gmap string geometry) :
  Steinhaus_init nLevel X Y = OK s -> lines s !! z = Some m ->
  (3 * size (filter (fun kg => length kg.2.1 = 2%nat) m) + 4
   = 4 ^ Z.to_nat z)%nat.
Proof.
  intros Hs Hm.
  destruct (Steinhaus_level X Y nLevel s z m Hs Hm) as (d & -> & _ & Hok).
  rewrite (level_filter_size X Y (S d) m 2 Hok).
  assert (length (filter (fun key => length (resolve (library X Y)
                                               (digits key)).1 = 2%nat)
                    (all_keys (S d)))
          = junction_count (0%Z, 1%Z) (S d)) as ->.
  { unfold junction_count. f_equal. apply filter_iff_in.
    intros key Hkey%elem_of_all_keys.
    fold (node_state (digits key)). apply resolve_two_polylines.
    intros E. apply (f_equal length) in E.
    rewrite digits_length in E. destruct Hkey as [Hl _].
    rewrite Hl in E. done. }
  apply junction_count_roots.
Qed.

(** Level [d] holds exactly [(4^d - 4) / 3] connector junctions (nodes
    drawn as two polylines): none at level 1, 4 at level 2, 20 at level 3;
    the other nodes are plain. *)
Theorem junction_nodes_count (X Y : array) (nLevel : Z) (s : Steinhaus)
    (z : Z) (m : gmap string geometry) :
  Steinhaus_init nLevel X Y = OK s -> lines s !! z = Some m ->
  (3 * size (filter (fun kg => length kg.2.1 = 2%nat) m) + 4
   = 4 ^ Z.to_nat z)%nat /\
  (size (filter (fun kg => length kg.2.1 = 1%nat) m)
   + size (filter (fun kg => length kg.2.1 = 2%nat) m)
   = 4 ^ Z.to_nat z)%nat.
Proof.
  intros Hs Hm. split; [by apply (junction_size X Y nLevel s)|].
  destruct (Steinhaus_level X Y nLevel s z m Hs Hm) as (d & -> & _ & Hok).
  rewrite !(level_filter_size X Y (S d) m _ Hok).
  rewrite <- (length_all_keys (S d)).
  rewrite <- (Permutation_length
                (filter_app_complement
                   (fun key => length (resolve (library X Y)
                                         (digits key)).1 = 2%nat)
                   (all_keys (S d)))).
  rewrite length_app, Nat.add_comm. f_equal. f_equal.
  apply filter_iff_in. intros key Hkey%elem_of_all_keys.
  destruct (address_inv d key Hkey) as (key0 & c & -> & _ & _).
  rewrite digits_snoc, resolve_snoc.
  destruct (decide _); cbn; lia.
Qed.

Lemma junction_nodes_count_witness :
  exists s m,
    Steinhaus_init 3 default_X default_Y = OK s /\
    lines s !! 3%Z = Some m /\
    size (filter (fun kg => length kg.2.1 = 2%nat) m) = 20%nat.
Proof.
  destruct (Steinhaus_init_spec default_X default_Y 3)
    as (ls & Hs & Hlev & _).
  destruct (Hlev 3%nat) as (m & Hm & _); [vm_compute; lia|].
  eexists _, m. split; [exact Hs|]. split; [exact Hm|].
  destruct (junction_nodes_count default_X default_Y 3 _ 3 m Hs Hm)
    as [H _].
  change (4 ^ Z.to_nat 3)%nat with 64%nat in H. lia.
Defined.

(** ** Rendering *)

Lemma plot_lines_loop rnd rc (ls : list (array * array)) n acc :
  Forall (fun l => length l.1 = length l.2) ls ->
  exists new,
    for_each (plot_line rnd rc) ls (n, acc)
    = OK ((if rc then n + 3 * length ls else n)%nat, acc ++ new) /\
    new.*1 = ls /\ (rc = false -> Forall (fun p => p.2 = Black) new).
Proof.
  intros Hls. revert n acc.
  induction Hls as [|l ls Hl _ IH]; intros n acc.
  - exists []. rewrite app_nil_r. cbn [for_each length].
    split; [by destruct rc; rewrite ?Nat.mul_0_r, ?Nat.add_0_r|]. done.
  - cbn [for_each]. unfold plot_line at 2. cbn [fst snd].
    rewrite decide_True by done. rewrite bind_OK.
    destruct (IH (if rc then (n + 3)%nat else n)
                (acc ++ [(l.1, l.2,
                          if rc then RGB (rnd n) (rnd (S n)) (rnd (S (S n)))
                          else Black)]))
      as (new & -> & Hnew & Hblack).
    eexists (_ :: new). rewrite <- app_assoc. cbn [app length].
    split; [|split].
    + f_equal. f_equal. destruct rc; lia.
    + rewrite fmap_cons, Hnew. cbn [fst]. by destruct l.
    + intros ->. constructor; [done|]. by apply Hblack.
Qed.

Lemma plot_nodes_loop rnd rc (kgs : list (string * geometry)) n acc :
  Forall (fun kg : string * geometry =>
            Forall (fun l : array * array => length l.1 = length l.2)
              (zip kg.2.1 kg.2.2)) kgs ->
  exists new,
    for_each
      (fun st (kg : string * geometry) =>
         for_each (plot_line rnd rc) (zip kg.2.1 kg.2.2) st) kgs (n, acc)
    = OK ((if rc
           then n + 3 * length (kgs ≫= fun kg => zip kg.2.1 kg.2.2)
           else n)%nat, acc ++ new) /\
    new.*1 = (kgs ≫= fun kg => zip kg.2.1 kg.2.2) /\
    (rc = false -> Forall (fun p => p.2 = Black) new).
Proof.
  intros Hkgs. revert n acc.
  induction Hkgs as [|kg kgs Hkg _ IH]; intros n acc.
  - exists []. rewrite app_nil_r. cbn [for_each mbind list_bind length].
    split; [by destruct rc; rewrite ?Nat.mul_0_r, ?Nat.add_0_r|]. done.
  - cbn [for_each]. rewrite bind_cons.
    destruct (plot_lines_loop rnd rc _ n acc Hkg) as (new1 & -> & H1 & B1).
    rewrite bind_OK.
    destruct (IH (if rc then n + 3 * length (zip kg.2.1 kg.2.2) else n)%nat
                (acc ++ new1)) as (new2 & -> & H2 & B2).
    exists (new1 ++ new2). rewrite <- app_assoc.
    split; [|split].
    + f_equal. f_equal. rewrite length_app. destruct rc; lia.
    + by rewrite fmap_app, H1, H2.
    + intros Hrc. apply Forall_app. split; [by apply B1|by apply B2].
Qed.

Lemma resolve_lines X Y ds k :
  length X = length Y -> k ∈ [1; 2; 3; 4]%Z ->
  let g := resolve (library X Y) (ds ++ [k]) in
  Forall (fun l : array * array => length l.1 = length l.2) (zip g.1 g.2) /\
  length (zip g.1 g.2) = length g.1.
Proof.
  intros HXY Hk.
  destruct (library_lookups X Y k Hk)
    as (x & y & sx & sy & ex & ey & (Hx & Hy & Hsx & Hsy & Hex & Hey)
        & Lx & Ly & Lsx & Lsy & Lex & Ley).
  destruct (seed_lengths X Y (length X) eq_refl (eq_sym HXY))
    as ([? ?] & [? ?] & [? ?]).
  cbv zeta. rewrite resolve_snoc. destruct (decide _).
  - unfold junction_node.
    rewrite !lookup_total_alt, Hsx, Hsy, Hex, Hey. cbn [default fst snd zip
      zip_with length]. unfold id.
    split; [|done]. repeat constructor; cbn [fst snd];
      rewrite !length_affine; lia.
  - unfold plain_node.
    rewrite !lookup_total_alt, Hx, Hy. cbn [default fst snd zip zip_with
      length]. unfold id.
    split; [|done]. repeat constructor; cbn [fst snd];
      rewrite !length_affine; lia.
Qed.

Lemma size_filter_to_list {A} (P : string * A -> Prop)
    `{!forall x, Decision (P x)} (m : gmap string A) :
  size (filter P m) = length (filter P (map_to_list m)).
Proof.
  induction m as [|i x m Hi Hfirst IH] using map_first_key_ind.
  - by rewrite map_filter_empty, map_to_list_empty.
  - rewrite map_to_list_insert_first_key by done. rewrite filter_cons.
    destruct (decide (P (i, x))) as [HP|HP].
    + rewrite map_filter_insert_True by done.
      rewrite map_size_insert_None
        by (apply map_lookup_filter_None_2; by left).
      simpl. by rewrite IH.
    + rewrite map_filter_insert_False by done.
      by rewrite delete_id.
Qed.

Lemma length_bind_one_or_two {A B} (f : A -> list B) (l : list A) :
  (forall x, x ∈ l -> length (f x) = 1%nat \/ length (f x) = 2%nat) ->
  length (l ≫= f)
  = (length l + length (filter (fun x => length (f x) = 2%nat) l))%nat.
Proof.
  induction l as [|a l IH]; intros Hl; [done|].
  rewrite bind_cons, length_app, filter_cons, IH
    by (intros x Hx; apply Hl; by right).
  destruct (Hl a ltac:(by left)) as [Ha|Ha];
    destruct (decide _); simpl; lia.
Qed.

Lemma Steinhaus_level_lines X Y nLevel s z (m : gmap string geometry) :
  length X = length Y ->
  Steinhaus_init nLevel X Y = OK s -> lines s !! z = Some m ->
  Forall (fun kg : string * geometry =>
            Forall (fun l : array * array => length l.1 = length l.2)
              (zip kg.2.1 kg.2.2)) (map_to_list m) /\
  (3 * length (level_lines m) + 4 = 4 ^ (Z.to_nat z + 1))%nat.
Proof.
  intros HXY Hs Hm.
  assert (forall kg, kg ∈ map_to_list m ->
            Forall (fun l : array * array => length l.1 = length l.2)
              (zip kg.2.1 kg.2.2) /\
            length (zip kg.2.1 kg.2.2) = length kg.2.1 /\
            (length kg.2.1 = 1%nat \/ length kg.2.1 = 2%nat)) as Hall.
  { intros [key g] Hkg%elem_of_map_to_list.
    destruct (Steinhaus_entry X Y nLevel s z m key g Hs Hm Hkg)
      as (d & key0 & c & k & _ & _ & _ & _ & _ & _ & _ & Hk & _ & ->).
    destruct (resolve_lines X Y (digits key0) k HXY Hk) as [H1 H2].
    cbn [snd]. split; [done|]. split; [done|].
    pose proof (resolve_flag (library X Y) (digits key0) k) as Hf.
    rewrite node_state_snoc in Hf. unfold descend in Hf. cbn [snd] in Hf.
    destruct (decide _); lia. }
  split; [apply Forall_forall; intros kg Hkg; by apply Hall|].
  unfold level_lines. rewrite length_bind_one_or_two
    by (intros kg Hkg; destruct (Hall kg Hkg) as (_ & -> & ?); done).
  rewrite (filter_iff_in _ (fun kg : string * geometry =>
                              length kg.2.1 = 2%nat))
    by (intros kg Hkg; destruct (Hall kg Hkg) as (_ & -> & _); done).
  rewrite <- size_filter_to_list, length_map_to_list.
  pose proof (junction_size X Y nLevel s z m Hs Hm) as HJ.
  destruct (Steinhaus_level X Y nLevel s z m Hs Hm) as (d & Ed & _ & Hok).
  rewrite (level_ok_size _ _ m Hok), Ed in *.
  rewrite Nat.pow_add_r. simpl (4 ^ 1)%nat. lia.
Qed.

Lemma makePlot_at rnd X Y nLevel s file lv n :
  length X = length Y -> Steinhaus_init nLevel X Y = OK s ->
  (1 <= lv <= Z.max nLevel 1)%Z ->
  exists plots,
    makePlot rnd s file lv false false n = OK (mkFigure file false plots, n) /\
    Forall (fun p => p.2 = Black) plots /\
    (3 * length plots + 4 = 4 ^ (Z.to_nat lv + 1))%nat /\
    plots.*1 = level_lines (default ∅ (lines s !! lv)).
Proof.
  intros HXY Hs Hlv.
  destruct (proj2 (Steinhaus_lines_dom X Y nLevel s lv Hs) Hlv) as [m Hm].
  destruct (Steinhaus_level_lines X Y nLevel s lv m HXY Hs Hm)
    as [Hall Hcount].
  destruct (plot_nodes_loop rnd false (map_to_list m) n [] Hall)
    as (plots & Hloop & Hplots & Hblack).
  exists plots. unfold makePlot, getitem.
  rewrite Hm, bind_OK, Hloop, bind_OK. cbn [fst snd app default].
  fold (level_lines m) in *.
  split; [done|]. split; [by apply Hblack|].
  split; [|done]. by rewrite <- (length_fmap fst), Hplots.
Qed.

(** What [makePlot] hands to the renderer, for a file name with one of
    the two extensions [main] uses.  On a curve built from X and Y of one
    length, a level outside [1 .. max nLevel 1] raises [KeyError]; a built
    level gives one figure with the requested file name and grid flag,
    holding the polylines of the level in some order,
    [(4^(level+1) - 4) / 3] of them.  [randomColor] changes nothing but
    the colours, drawing three random numbers for each polyline; without
    it every polyline is black. *)
Theorem makePlot_polylines (rnd : nat -> Qc) (X Y : array) (nLevel : Z)
    (s : Steinhaus) (outputFilename base : string) (lv : Z)
    (plotGrid randomColor : bool) (n : nat) :
  length X = length Y -> Steinhaus_init nLevel X Y = OK s ->
  outputFilename = base +:+ ".svg" \/ outputFilename = base +:+ ".png" ->
  match lines s !! lv with
  | None =>
      ~ (1 <= lv <= Z.max nLevel 1)%Z /\
      makePlot rnd s outputFilename lv plotGrid randomColor n
      = Raise KeyError
  | Some m =>
      (1 <= lv <= Z.max nLevel 1)%Z /\
      exists plots,
        makePlot rnd s outputFilename lv plotGrid randomColor n
        = OK (mkFigure outputFilename plotGrid plots,
              if randomColor then (n + 3 * length plots)%nat else n) /\
        plots.*1 ≡ₚ level_lines m /\
        (3 * length plots + 4 = 4 ^ (Z.to_nat lv + 1))%nat /\
        (randomColor = false -> Forall (fun p => p.2 = Black) plots)
  end.
Proof.
  intros HXY Hs _.
  pose proof (Steinhaus_lines_dom X Y nLevel s lv Hs) as Hdom.
  unfold makePlot, getitem.
  destruct (lines s !! lv) as [m|] eqn:Hm.
  - split; [apply Hdom; by eexists|].
    destruct (Steinhaus_level_lines X Y nLevel s lv m HXY Hs Hm)
      as [Hall Hcount].
    destruct (plot_nodes_loop rnd randomColor (map_to_list m) n [] Hall)
      as (plots & Hloop & Hplots & Hblack).
    exists plots. rewrite bind_OK, Hloop, bind_OK. cbn [fst snd app].
    fold (level_lines m) in *.
    assert (length plots = length (level_lines m)) as Hlen
      by by rewrite <- Hplots, length_fmap.
    rewrite Hlen, Hplots. done.
  - split; [|done]. intros Hlv. apply Hdom in Hlv. by destruct Hlv.
Qed.

Lemma makePlot_polylines_witness :
  length default_X = length default_Y /\
  "Steinhaus.svg"%string = "Steinhaus" +:+ ".svg" /\
  exists s,
    Steinhaus_init 2 default_X default_Y = OK s /\
    (exists plots,
       makePlot (fun _ => 0) s "Steinhaus.svg" 2 false true 0
       = OK (mkFigure "Steinhaus.svg" false plots, (0 + 3 * 20)%nat)) /\
    makePlot (fun _ => 0) s "Steinhaus.svg" 3 false true 0 = Raise KeyError.
Proof.
  assert ("Steinhaus.svg"%string = "Steinhaus" +:+ ".svg"
          \/ "Steinhaus.svg"%string = "Steinhaus" +:+ ".png") as Hname
    by (left; reflexivity).
  split; [reflexivity|]. split; [reflexivity|].
  destruct (Steinhaus_init_spec default_X default_Y 2)
    as (ls & Hs & Hlev & Hno).
  eexists. split; [exact Hs|].
  pose proof (makePlot_polylines (fun _ => 0) default_X default_Y 2 _
                "Steinhaus.svg" "Steinhaus" 2 false true 0 eq_refl Hs Hname)
    as H2.
  pose proof (makePlot_polylines (fun _ => 0) default_X default_Y 2 _
                "Steinhaus.svg" "Steinhaus" 3 false true 0 eq_refl Hs Hname)
    as H3.
  cbn [lines] in H2, H3.
  destruct (Hlev 2%nat) as (m & Hm & _); [vm_compute; lia|].
  change (Z.of_nat 2) with 2%Z in Hm. rewrite Hm in H2.
  rewrite (Hno 3%Z) in H3 by (vm_compute; right; reflexivity).
  destruct H2 as (_ & plots & Hplot & _ & Hcount & _).
  split; [|exact (proj2 H3)].
  exists plots. rewrite Hplot.
  change (4 ^ (Z.to_nat 2 + 1))%nat with 64%nat in Hcount.
  replace (length plots) with 20%nat by lia. reflexivity.
Defined.

Lemma for_each_app {A S} (body : S -> A -> result S) (l1 l2 : list A)
    (s : S) :
  for_each body (l1 ++ l2) s = (s' ← for_each body l1 s; for_each body l2 s').
Proof.
  revert s. induction l1 as [|a l1 IH]; intros s; [done|].
  cbn [app for_each]. destruct (body s a); [apply IH|done].
Qed.

Lemma black_plots_unique (p1 p2 : list (array * array * colour)) :
  p1.*1 = p2.*1 ->
  Forall (fun p => p.2 = Black) p1 -> Forall (fun p => p.2 = Black) p2 ->
  p1 = p2.
Proof.
  intros Heq H1. revert p2 Heq.
  induction H1 as [|[l1 c1] p1 Hc1 _ IH]; intros p2 Heq H2.
  - by destruct p2.
  - destruct H2 as [|[l2 c2] p2 Hc2 H2]; [done|].
    cbn in *. injection Heq as -> Heq. subst. f_equal. by apply IH.
Qed.

(** What [main] renders.  For X and Y of one length it never raises: it
    writes two figures for each level [1 .. nLevel], in order
    [Steinhaus_1.svg], [Steinhaus_1.png], [Steinhaus_2.svg], ..., none at
    all when [nLevel < 1]; the two figures of level [i] hold the same
    [(4^(i+1) - 4) / 3] polylines, all black, without grid. *)
Theorem main_figures_rendered (rnd : nat -> Qc) (X Y : array) (nLevel : Z) :
  length X = length Y ->
  exists figs,
    main_figures rnd X Y nLevel = OK figs /\
    length figs = (2 * Z.to_nat nLevel)%nat /\
    forall i : nat, (i < Z.to_nat nLevel)%nat ->
      exists plots,
        figs !! (2 * i)%nat
        = Some (mkFigure ("Steinhaus_" +:+ str (Z.of_nat (S i)) +:+ ".svg")
                  false plots) /\
        figs !! (2 * i + 1)%nat
        = Some (mkFigure ("Steinhaus_" +:+ str (Z.of_nat (S i)) +:+ ".png")
                  false plots) /\
        (3 * length plots + 4 = 4 ^ (i + 2))%nat /\
        Forall (fun p => p.2 = Black) plots.
Proof.
  intros HXY. unfold main_figures.
  destruct (Steinhaus_init_spec X Y nLevel) as (ls & Hs & _).
  rewrite Hs, bind_OK. cbn [level]. set (s := mkSteinhaus _ _ _) in *.
  unfold range. replace (nLevel + 1 - 1)%Z with nLevel by lia.
  set (body := fun (st : list figure * nat) i => _).
  assert (forall k : nat, (Z.of_nat k <= Z.max nLevel 1)%Z ->
            exists figs,
              for_each body (seqZ 1 (Z.of_nat k)) ([], 0%nat)
              = OK (figs, 0%nat) /\
              length figs = (2 * k)%nat /\
              forall i : nat, (i < k)%nat ->
                exists plots,
                  figs !! (2 * i)%nat
                  = Some (mkFigure ("Steinhaus_" +:+ str (Z.of_nat (S i))
                                    +:+ ".svg") false plots) /\
                  figs !! (2 * i + 1)%nat
                  = Some (mkFigure ("Steinhaus_" +:+ str (Z.of_nat (S i))
                                    +:+ ".png") false plots) /\
                  (3 * length plots + 4 = 4 ^ (i + 2))%nat /\
                  Forall (fun p => p.2 = Black) plots) as Hloop.
  { induction k as [|k IH]; intros Hk.
    - exists []. split; [done|]. split; [done|]. intros i Hi. lia.
    - destruct IH as (figs & Hfigs & Hlen & Hall); [lia|].
      rewrite seqZ_S, for_each_app, Hfigs, bind_OK.
      replace (1 + Z.of_nat k)%Z with (Z.of_nat (S k)) by lia.
      cbn [for_each]. unfold body at 1. cbn [fst snd].
      pose proof (makePlot_at rnd X Y nLevel s
                    ("Steinhaus_" +:+ str (Z.of_nat (S k)) +:+ ".svg")
                    (Z.of_nat (S k)) 0 HXY Hs ltac:(lia))
        as (p1 & -> & Hb1 & Hc1 & Hl1).
      rewrite bind_OK. cbn [fst snd].
      pose proof (makePlot_at rnd X Y nLevel s
                    ("Steinhaus_" +:+ str (Z.of_nat (S k)) +:+ ".png")
                    (Z.of_nat (S k)) 0 HXY Hs ltac:(lia))
        as (p2 & -> & Hb2 & Hc2 & Hl2).
      rewrite !bind_OK. cbn [fst snd].
      assert (p2 = p1) as ->
        by (apply black_plots_unique; [congruence|done..]).
      eexists. split; [done|]. split; [rewrite length_app; simpl; lia|].
      intros i Hi. destruct (decide (i = k)) as [->|Hne].
      + exists p1.
        rewrite !lookup_app_r by lia.
        replace (2 * k - length figs)%nat with 0%nat by lia.
        replace (2 * k + 1 - length figs)%nat with 1%nat by lia.
        split; [done|]. split; [done|]. split; [|done].
        rewrite Nat2Z.id in Hc1.
        by replace (k + 2)%nat with (S k + 1)%nat by lia.
      + destruct (Hall i ltac:(lia)) as (plots & H1 & H2 & H3 & H4).
        exists plots. rewrite !lookup_app_l by lia. done. }
  destruct (decide (nLevel <= 0)%Z) as [Hle|Hgt].
  - rewrite seqZ_nil by done. exists []. cbn.
    split; [done|]. split; [lia|]. intros i Hi. lia.
  - destruct (Hloop (Z.to_nat nLevel)) as (figs & Hfigs & Hlen & Hall); [lia|].
    rewrite Z2Nat.id in Hfigs by lia. rewrite Hfigs, bind_OK.
    by exists figs.
Qed.

Lemma main_figures_rendered_witness :
  length default_X = length default_Y /\
  exists figs,
    main_figures (fun _ => 0) default_X default_Y 2 = OK figs /\
    length figs = 4%nat /\
    exists plots,
      figs !! 3%nat = Some (mkFigure "Steinhaus_2.png" false plots) /\
      length plots = 20%nat.
Proof.
  split; [reflexivity|].
  destruct (main_figures_rendered (fun _ => 0) default_X default_Y 2 eq_refl)
    as (figs & Hfigs & Hlen & Hall).
  exists figs. split; [exact Hfigs|]. split; [exact Hlen|].
  destruct (Hall 1%nat) as (plots & _ & Hpng & Hcount & _);
    [vm_compute; lia|].
  exists plots. split; [exact Hpng|].
  change (4 ^ (1 + 2))%nat with 64%nat in Hcount. lia.
Defined.

(** ** The script *)

(** The options of the script.  With neither [--px] nor [--py] (or with
    empty ones) the default seed is used and the curve is built; with
    only one of the two given, [len(None)] raises [TypeError] before the
    lengths are compared. *)
Theorem script_options (X : array) (nLevel : Z) :
  (X <> [] ->
   script (Some X) None nLevel = Raise TypeError /\
   script None (Some X) nLevel = Raise TypeError) /\
  exists s,
    Steinhaus_init nLevel default_X default_Y = OK s /\
    script None None nLevel = OK s /\
    script (Some []) None nLevel = OK s /\
    script None (Some []) nLevel = OK s /\
    script (Some []) (Some []) nLevel = OK s.
Proof.
  split.
  - intros HX. unfold script, none_or_empty.
    rewrite bool_decide_eq_false_2 by (by destruct X).
    split; [|done]. cbn [andb len]. by rewrite bind_OK.
  - destruct (Steinhaus_init_spec default_X default_Y nLevel)
      as (ls & Hs & _).
    eexists. split; [exact Hs|].
    unfold script, none_or_empty, main. cbn. by rewrite Hs.
Qed.

Lemma script_options_witness :
  [q 1 2] <> [] /\
  script (Some [q 1 2]) None 6 = Raise TypeError /\
  script None (Some [q 1 2]) 6 = Raise TypeError.
Proof.
  assert ([q 1 2] <> []) as H by done.
  split; [exact H|]. exact (proj1 (script_options [q 1 2] 6) H).
Defined.
